(** * System monitor: report generator, dashboard back end, alert log

    A shallow embedding of the Python code of the system monitor
    (web/report_generator.py, web/app.py and the logic exercised by
    tests/python/test_chart_data.py and tests/python/test_alert_manager.py)
    together with the properties its specification states about it.

    Python values are dynamically typed, so the embedding carries a small
    universe of JSON-shaped values, an exception monad for the operations
    that can raise, and IEEE binary64 floats as [spec_float] (the
    specification the primitive floats of the prover are checked against). *)

From Stdlib Require Import ZArith QArith Qabs Qpower Lia Lqa Bool List Ascii String.
From Stdlib Require Import Floats.SpecFloat.
From Stdlib Require Import Sorting.Sorted Sorting.Permutation.
From stdpp Require Import base option list strings gmap.

Local Open Scope string_scope.
Local Open Scope list_scope.
Local Open Scope Z_scope.

(** ** Exceptions *)

Module Py.

(** The exception classes the embedded functions can raise. *)
Inductive exc : Set :=
| AttributeError
| TypeError
| ZeroDivisionError
| OverflowError
| OSError
| ValueError
| RequestException.

Inductive result (A : Type) : Type :=
| Ok (a : A)
| Raise (e : exc).

Arguments Ok {A} a.
Arguments Raise {A} e.

Definition bind {A B : Type} (k : A -> result B) (r : result A) : result B :=
  match r with
  | Ok a => k a
  | Raise e => Raise e
  end.

(** [try: ... except: pass] around a computation whose value is kept only
    when nothing was raised. *)
Definition try_except {A : Type} (r : result A) (default : A) : A :=
  match r with
  | Ok a => a
  | Raise _ => default
  end.

End Py.

Import Py.

#[global] Instance result_ret : MRet Py.result := @Py.Ok.
#[global] Instance result_bind : MBind Py.result := @Py.bind.

(** ** Floats: IEEE binary64 *)

Module F64.

Definition prec : Z := 53.
Definition emax : Z := 1024.

Definition float : Set := spec_float.

Definition div : float -> float -> float := SFdiv prec emax.
Definition mul : float -> float -> float := SFmul prec emax.

Definition is_zero (x : float) : bool :=
  match x with
  | S754_zero _ => true
  | _ => false
  end.

Definition is_infinity (x : float) : bool :=
  match x with
  | S754_infinity _ => true
  | _ => false
  end.

(** The sign bit is clear and the value is a number: [x >= 0.0] holds and
    [x] is not [-0.0]. *)
Definition nonneg (x : float) : bool :=
  match x with
  | S754_zero s | S754_infinity s | S754_finite s _ _ => negb s
  | S754_nan => false
  end.

(** The float nearest to the integer [n] (ties to even); an infinity when
    [n] is out of range. *)
Definition of_Z (n : Z) : float := binary_normalize prec emax n 0 false.

(** The correctly rounded quotient of two non-zero integers: the mantissas
    are handed to the division core as they are, which scales the dividend
    until the quotient has enough bits and keeps the position of the
    remainder for the rounding. *)
Definition div_Z (a b : Z) : float :=
  match a, b with
  | Z0, Z0 => S754_nan
  | Z0, _ => S754_zero (b <? 0)
  | _, Z0 => S754_infinity (a <? 0)
  | _, _ =>
      SFdiv prec emax
        (S754_finite (a <? 0) (Z.to_pos (Z.abs a)) 0)
        (S754_finite (b <? 0) (Z.to_pos (Z.abs b)) 0)
  end.

(** Round half to even of the rational [n / d], for [0 <= n] and [0 < d]. *)
Definition round_half_even (n d : Z) : Z :=
  let q := n / d in
  let r := n mod d in
  match (2 * r ?= d) with
  | Lt => q
  | Gt => q + 1
  | Eq => if Z.even q then q else q + 1
  end.

(** [round(x, 1)]: the float nearest to the decimal with one fractional
    digit that is nearest to the exact value of [x] (ties to even on the
    exact value); infinities, NaN and zeros round to themselves. A float
    with a non-negative exponent is an integer and rounds to itself. *)
Definition round1 (x : float) : float :=
  match x with
  | S754_finite s m e =>
      if 0 <=? e then x
      else
        let k := round_half_even (10 * Z.pos m) (2 ^ (- e)) in
        if k =? 0 then S754_zero s
        else div_Z (if s then - k else k) 10
  | _ => x
  end.

End F64.

(** ** Python values

    The values [json.load] produces, which are the values the functions
    below receive: [None], booleans, integers, floats, strings, lists and
    dictionaries with string keys. A dictionary keeps its items in insertion
    order; its keys are distinct, so the first item under a key is the item
    under that key. A character of a [string] stands for one character of
    the Python string. *)

#[local] Set Warnings "-register-all".

Inductive pyval : Type :=
| PNone
| PBool (b : bool)
| PInt (n : Z)
| PFloat (x : F64.float)
| PStr (s : string)
| PList (l : list pyval)
| PDict (items : list (string * pyval)).

Module Value.

(** [bool(v)], the test of [if v] and [not v]. *)
Definition truthy (v : pyval) : bool :=
  match v with
  | PNone => false
  | PBool b => b
  | PInt n => negb (n =? 0)
  | PFloat x => negb (F64.is_zero x)
  | PStr s => negb (String.eqb s "")
  | PList l => negb (Nat.eqb (length l) 0)
  | PDict items => negb (Nat.eqb (length items) 0)
  end.

(** [isinstance(v, (int, float))]; [bool] is a subclass of [int]. *)
Definition is_number (v : pyval) : bool :=
  match v with
  | PBool _ | PInt _ | PFloat _ => true
  | _ => false
  end.

(** The item stored under [key] in the items of a dictionary. *)
Fixpoint lookup_item (items : list (string * pyval)) (key : string)
  : option pyval :=
  match items with
  | [] => None
  | (k, v) :: rest => if String.eqb k key then Some v else lookup_item rest key
  end.

(** [d.get(key, default)] on the items of a dictionary. *)
Definition dict_get (items : list (string * pyval)) (key : string)
  (default : pyval) : pyval :=
  match lookup_item items key with
  | Some v => v
  | None => default
  end.

(** [v.get(key, default)]: only a dictionary has the method. *)
Definition get (v : pyval) (key : string) (default : pyval) : Py.result pyval :=
  match v with
  | PDict items => Ok (dict_get items key default)
  | _ => Raise AttributeError
  end.

(** [len(v)]. *)
Definition len (v : pyval) : Py.result Z :=
  match v with
  | PStr s => Ok (Z.of_nat (String.length s))
  | PList l => Ok (Z.of_nat (length l))
  | PDict items => Ok (Z.of_nat (length items))
  | _ => Raise TypeError
  end.

Definition lower_ascii (c : ascii) : ascii :=
  let n := nat_of_ascii c in
  if ((65 <=? n) && (n <=? 90))%nat then ascii_of_nat (n + 32) else c.

(** [s.lower()] on the ASCII letters. The other characters are kept, and a
    string that holds one of them is none of the lower-case ASCII words the
    callers compare the result with, before or after Python lowers it. *)
Fixpoint lower (s : string) : string :=
  match s with
  | EmptyString => EmptyString
  | String c rest => String (lower_ascii c) (lower rest)
  end.

(** [v.lower()]: only a string has the method. *)
Definition str_lower (v : pyval) : Py.result string :=
  match v with
  | PStr s => Ok (lower s)
  | _ => Raise AttributeError
  end.

End Value.

(** ** Arithmetic and comparison of Python numbers *)

Module Num.

(** A number as an exact value: [n * 2 ^ e], an infinity, or no number. *)
Inductive exact : Set :=
| Finite (n e : Z)
| Infinite (negative : bool)
| NotANumber.

Definition exact_of_float (x : F64.float) : exact :=
  match x with
  | S754_zero _ => Finite 0 0
  | S754_infinity s => Infinite s
  | S754_nan => NotANumber
  | S754_finite s m e => Finite (if s then Z.neg m else Z.pos m) e
  end.

Definition exact_of (v : pyval) : option exact :=
  match v with
  | PBool b => Some (Finite (if b then 1 else 0) 0)
  | PInt n => Some (Finite n 0)
  | PFloat x => Some (exact_of_float x)
  | _ => None
  end.

(** [a > b] on exact values; false as soon as one side is NaN. *)
Definition exact_gt (a b : exact) : bool :=
  match a, b with
  | NotANumber, _ | _, NotANumber => false
  | Infinite sa, Infinite sb => negb sa && sb
  | Infinite sa, Finite _ _ => negb sa
  | Finite _ _, Infinite sb => sb
  | Finite n1 e1, Finite n2 e2 =>
      let e := Z.min e1 e2 in
      n2 * 2 ^ (e2 - e) <? n1 * 2 ^ (e1 - e)
  end.

(** [a == b] on exact values. *)
Definition exact_eq (a b : exact) : bool :=
  match a, b with
  | NotANumber, _ | _, NotANumber => false
  | Infinite sa, Infinite sb => Bool.eqb sa sb
  | Infinite _, Finite _ _ | Finite _ _, Infinite _ => false
  | Finite n1 e1, Finite n2 e2 =>
      let e := Z.min e1 e2 in
      n2 * 2 ^ (e2 - e) =? n1 * 2 ^ (e1 - e)
  end.

(** [a > b]: numbers compare by value, whatever their types; an operand
    that is no number raises [TypeError]. *)
Definition gt (a b : pyval) : Py.result bool :=
  match exact_of a, exact_of b with
  | Some x, Some y => Ok (exact_gt x y)
  | _, _ => Raise TypeError
  end.

(** [a == b] on two numbers. *)
Definition eqb (a b : pyval) : bool :=
  match exact_of a, exact_of b with
  | Some x, Some y => exact_eq x y
  | _, _ => false
  end.

(** [float(n)] for an integer: [OverflowError] when [n] is out of range. *)
Definition float_of_int (n : Z) : Py.result F64.float :=
  let x := F64.of_Z n in
  if F64.is_infinity x then Raise OverflowError else Ok x.

(** [a / b] on two integers: the correctly rounded quotient. *)
Definition int_truediv (a b : Z) : Py.result F64.float :=
  if b =? 0 then Raise ZeroDivisionError
  else
    let q := F64.div_Z a b in
    if F64.is_infinity q then Raise OverflowError else Ok q.

(** [a / b] on two floats. *)
Definition float_truediv (a b : F64.float) : Py.result F64.float :=
  if F64.is_zero b then Raise ZeroDivisionError else Ok (F64.div a b).

Definition int_of_bool (b : bool) : Z := if b then 1 else 0.

(** [a / b]: true division. Two integers are divided exactly and rounded
    once. An integer met by a float is converted first, and the divisor is
    then tested against zero; an integer is zero exactly when its float is,
    so the test reads the integer. *)
Definition truediv (a b : pyval) : Py.result F64.float :=
  let as_int (v : pyval) : option Z :=
    match v with
    | PBool c => Some (int_of_bool c)
    | PInt n => Some n
    | _ => None
    end in
  match a, b with
  | PFloat x, PFloat y => float_truediv x y
  | PFloat x, _ =>
      match as_int b with
      | Some n =>
          y ← float_of_int n;
          if n =? 0 then Raise ZeroDivisionError else Ok (F64.div x y)
      | None => Raise TypeError
      end
  | _, PFloat y =>
      match as_int a with
      | Some n => x ← float_of_int n; float_truediv x y
      | None => Raise TypeError
      end
  | _, _ =>
      match as_int a, as_int b with
      | Some m, Some n => int_truediv m n
      | _, _ => Raise TypeError
      end
  end.

(** [max(0, v)] on a number: the first argument stays unless [v > 0]. *)
Definition max0 (v : pyval) : Py.result pyval :=
  c ← gt v (PInt 0); Ok (if (c : bool) then v else PInt 0).

(** [max(items)] on a non-empty list: the first of the greatest items. *)
Fixpoint max_from (best : pyval) (items : list pyval) : Py.result pyval :=
  match items with
  | [] => Ok best
  | item :: rest =>
      c ← gt item best;
      max_from (if (c : bool) then item else best) rest
  end.

End Num.

(** ** web/report_generator.py *)

Module ReportGenerator.

Import Value.

(** [counts = {'critical': 0, 'warning': 0, 'info': 0}] *)
Definition zero_counts : gmap string Z :=
  <["critical" := 0]> (<["warning" := 0]> (<["info" := 0]> ∅)).

(** The body of the loop of [_count_alerts_by_level]. *)
Definition count_alert (counts : gmap string Z) (alert : pyval)
  : Py.result (gmap string Z) :=
  match alert with
  | PDict items =>
      level ← str_lower (dict_get items "level" (PStr "info"));
      match counts !! level with
      | Some n => Ok (<[level := n + 1]> counts)
      | None => Ok counts
      end
  | _ => Ok counts
  end.

Fixpoint count_alerts (counts : gmap string Z) (alerts : list pyval)
  : Py.result (gmap string Z) :=
  match alerts with
  | [] => Ok counts
  | alert :: rest => counts' ← count_alert counts alert; count_alerts counts' rest
  end.

Definition _count_alerts_by_level (alerts : pyval) : Py.result (gmap string Z) :=
  let counts := zero_counts in
  if negb (truthy alerts) then Ok counts
  else
    let alerts :=
      match alerts with
      | PList l => l
      | _ => []
      end in
    count_alerts counts alerts.

(** The dictionary [summary] starts from in [_generate_summary]. *)
Definition initial_summary : gmap string pyval :=
  <["cpu_usage" := PInt 0]> (<["memory_usage" := PInt 0]>
  (<["disk_count" := PInt 0]> (<["network_interfaces" := PInt 0]>
  (<["gpu_count" := PInt 0]> (<["temperature_max" := PInt 0]> ∅))))).

(** Get CPU usage. *)
Definition summary_cpu (metrics : pyval) (summary : gmap string pyval)
  : Py.result (gmap string pyval) :=
  cpu ← get metrics "cpu" (PDict []);
  match cpu with
  | PDict items =>
      Ok (<["cpu_usage" := dict_get items "usage_percent" (PInt 0)]> summary)
  | _ => Ok summary
  end.

(** [round((memory['used_mb'] / memory['total_mb']) * 100, 1)] *)
Definition memory_percent (used_mb total_mb : pyval) : Py.result pyval :=
  q ← Num.truediv used_mb total_mb;
  Ok (PFloat (F64.round1 (F64.mul q (F64.of_Z 100)))).

(** Calculate memory usage percentage. *)
Definition summary_memory (metrics : pyval) (summary : gmap string pyval)
  : Py.result (gmap string pyval) :=
  memory ← get metrics "memory" (PDict []);
  match memory with
  | PDict items =>
      if truthy (dict_get items "total_mb" PNone)
         && truthy (dict_get items "used_mb" PNone)
      then
        usage ← memory_percent (dict_get items "used_mb" PNone)
                               (dict_get items "total_mb" PNone);
        Ok (<["memory_usage" := usage]> summary)
      else Ok summary
  | _ => Ok summary
  end.

(** Count disks. *)
Definition summary_disk (metrics : pyval) (summary : gmap string pyval)
  : Py.result (gmap string pyval) :=
  disk ← get metrics "disk" (PList []);
  match disk with
  | PList l => Ok (<["disk_count" := PInt (Z.of_nat (length l))]> summary)
  | _ => Ok summary
  end.

(** Count network interfaces (network can be list or dict). *)
Definition summary_network (metrics : pyval) (summary : gmap string pyval)
  : Py.result (gmap string pyval) :=
  network ← get metrics "network" (PList []);
  match network with
  | PList l =>
      Ok (<["network_interfaces" := PInt (Z.of_nat (length l))]> summary)
  | PDict items =>
      n ← len (dict_get items "interfaces" (PList []));
      Ok (<["network_interfaces" := PInt n]> summary)
  | _ => Ok (<["network_interfaces" := PInt 0]> summary)
  end.

(** The test [t and t > 0] of a temperature reading. *)
Definition reading_positive (t : pyval) : Py.result bool :=
  if truthy t then Num.gt t (PInt 0) else Ok false.

(** The loop over [gpus] that collects the positive GPU temperatures. *)
Fixpoint gpu_temps (temps : list pyval) (gpus : list pyval)
  : Py.result (list pyval) :=
  match gpus with
  | [] => Ok temps
  | gpu :: rest =>
      temps' ←
        match gpu with
        | PDict items =>
            let gpu_temp := dict_get items "temperature_celsius" PNone in
            hot ← reading_positive gpu_temp;
            Ok (if (hot : bool) then temps ++ [gpu_temp] else temps)
        | _ => Ok temps
        end;
      gpu_temps temps' rest
  end.

(** [max(temps) if temps else 0] *)
Definition max_or_zero (temps : list pyval) : Py.result pyval :=
  match temps with
  | [] => Ok (PInt 0)
  | first :: rest => Num.max_from first rest
  end.

(** Count GPUs and get max temperature. *)
Definition summary_temperature (metrics : pyval) (summary : gmap string pyval)
  : Py.result (gmap string pyval) :=
  temp ← get metrics "temperature" (PDict []);
  match temp with
  | PDict items =>
      let gpus := dict_get items "gpus" (PList []) in
      let summary :=
        match gpus with
        | PList l => <["gpu_count" := PInt (Z.of_nat (length l))]> summary
        | _ => summary
        end in
      let cpu_temp := dict_get items "cpu_celsius" PNone in
      hot ← reading_positive cpu_temp;
      let temps := if (hot : bool) then [cpu_temp] else [] in
      temps ←
        match gpus with
        | PList l => gpu_temps temps l
        | _ => Ok temps
        end;
      hottest ← max_or_zero temps;
      Ok (<["temperature_max" := hottest]> summary)
  | _ => Ok summary
  end.

Definition _generate_summary (metrics : pyval) : Py.result (gmap string pyval) :=
  if negb (truthy metrics) then Ok ∅
  else
    let summary := initial_summary in
    summary ← summary_cpu metrics summary;
    summary ← summary_memory metrics summary;
    summary ← summary_disk metrics summary;
    summary ← summary_network metrics summary;
    summary ← summary_temperature metrics summary;
    Ok summary.

End ReportGenerator.

(** ** Counting alerts by level *)

Module CountAlerts.

Import Value ReportGenerator.

(** The level the loop reads off an alert: the lowered text under [level],
    [info] when the key is missing. *)
Definition reads_level (level : string) (alert : pyval) : bool :=
  match alert with
  | PDict items =>
      match dict_get items "level" (PStr "info") with
      | PStr s => String.eqb (lower s) level
      | _ => false
      end
  | _ => false
  end.

(** How many alerts of the list the loop reads as [level]. *)
Definition tally (level : string) (alerts : list pyval) : Z :=
  Z.of_nat (length (List.filter (reads_level level) alerts)).

(** An alert as the alert log holds it: when it is a dictionary with a
    [level], the level is text. *)
Definition level_is_text (alert : pyval) : bool :=
  match alert with
  | PDict items =>
      match dict_get items "level" (PStr "info") with
      | PStr _ => true
      | _ => false
      end
  | _ => true
  end.

Definition bump (k : Z) (n : Z) : Z := n + k.

Lemma fmap_bump_0 (o : option Z) : bump 0 <$> o = o.
Proof. destruct o as [n|]; simpl; [f_equal; unfold bump; lia | done]. Qed.

Lemma fmap_bump_bump (j k : Z) (o : option Z) :
  bump k <$> (bump j <$> o) = bump (j + k) <$> o.
Proof. destruct o as [n|]; simpl; [f_equal; unfold bump; lia | done]. Qed.

Lemma zero_counts_dom :
  dom zero_counts = ({["info"; "warning"; "critical"]} : gset string).
Proof.
  unfold zero_counts. rewrite !dom_insert_L, dom_empty_L.
  apply set_eq. intros k.
  rewrite !elem_of_union, !elem_of_singleton, elem_of_empty. tauto.
Qed.

Lemma count_alert_dom (counts counts' : gmap string Z) (alert : pyval) :
  count_alert counts alert = Ok counts' → dom counts' = dom counts.
Proof.
  destruct alert; simpl; try (intros [= <-]; reflexivity).
  destruct (str_lower _) as [level|e]; simpl; [|discriminate].
  destruct (counts !! level) as [n|] eqn:Hn; intros [= <-]; [|reflexivity].
  apply set_eq. intros k. rewrite dom_insert_L, elem_of_union, elem_of_singleton.
  split; [intros [->|Hk]; [apply elem_of_dom; eauto | exact Hk] | auto].
Qed.

Lemma count_alerts_dom (alerts : list pyval) :
  ∀ counts counts' : gmap string Z,
    count_alerts counts alerts = Ok counts' → dom counts' = dom counts.
Proof.
  induction alerts as [|alert rest IH]; simpl; intros counts counts'.
  - intros [= <-]. reflexivity.
  - destruct (count_alert counts alert) as [c1|e] eqn:H1; simpl; [|discriminate].
    intros H2. rewrite (IH _ _ H2). eapply count_alert_dom; eassumption.
Qed.

(** One turn of the loop adds one to the entry of the level it reads, when
    the dictionary has that entry, and leaves the other entries alone. *)
Lemma count_alert_lookup (counts : gmap string Z) (alert : pyval) :
  level_is_text alert = true →
  ∃ counts', count_alert counts alert = Ok counts' ∧
    ∀ level, counts' !! level
             = bump (if reads_level level alert then 1 else 0) <$> counts !! level.
Proof.
  intros Htext.
  destruct alert; simpl in *;
    try (eexists; split; [reflexivity|]; intros; symmetry; apply fmap_bump_0).
  destruct (dict_get items "level" (PStr "info")); try discriminate; simpl.
  destruct (counts !! lower s) as [n|] eqn:Hn;
    (eexists; split; [reflexivity|]); intros level.
  - destruct (String.eqb_spec (lower s) level) as [Heq|Hne].
    + rewrite <- Heq, lookup_insert_eq, Hn. reflexivity.
    + rewrite lookup_insert_ne by exact Hne. symmetry. apply fmap_bump_0.
  - destruct (String.eqb_spec (lower s) level) as [Heq|Hne].
    + rewrite <- Heq, Hn. reflexivity.
    + symmetry. apply fmap_bump_0.
Qed.

Lemma tally_cons (level : string) (alert : pyval) (rest : list pyval) :
  tally level (alert :: rest)
  = (if reads_level level alert then 1 else 0) + tally level rest.
Proof.
  unfold tally. simpl. destruct (reads_level level alert); simpl; lia.
Qed.

Lemma count_alerts_lookup (alerts : list pyval) :
  ∀ counts : gmap string Z,
    forallb level_is_text alerts = true →
    ∃ counts', count_alerts counts alerts = Ok counts' ∧
      ∀ level, counts' !! level = bump (tally level alerts) <$> counts !! level.
Proof.
  induction alerts as [|alert rest IH]; simpl; intros counts Htext.
  - eexists; split; [reflexivity|]. intros. symmetry. apply fmap_bump_0.
  - apply andb_true_iff in Htext as [Ha Hrest].
    destruct (count_alert_lookup counts alert Ha) as (c1 & -> & H1). simpl.
    destruct (IH c1 Hrest) as (c2 & -> & H2).
    eexists; split; [reflexivity|]. intros level.
    rewrite H2, H1, fmap_bump_bump, tally_cons. reflexivity.
Qed.

(** The alerts of the test [test_count_alerts_by_level]. *)
Definition sample_alerts : list pyval :=
  [ PDict [("level", PStr "info"); ("message", PStr "Test 1")];
    PDict [("level", PStr "warning"); ("message", PStr "Test 2")];
    PDict [("level", PStr "warning"); ("message", PStr "Test 3")];
    PDict [("level", PStr "critical"); ("message", PStr "Test 4")] ].

(** C9. Whatever [_count_alerts_by_level] is given, the mapping it returns
    has exactly the three levels [info], [warning] and [critical]. On a
    list of alerts whose levels are text it returns, and each level maps to
    the number of alerts of that level (zero when the input has none). The
    empty list gives zero for the three levels, and the alerts
    [info, warning, warning, critical] give 1, 2 and 1. *)
Theorem count_alerts_by_level_all_levels :
  (∀ (alerts : pyval) (counts : gmap string Z),
      _count_alerts_by_level alerts = Ok counts →
      dom counts = ({["info"; "warning"; "critical"]} : gset string))
  ∧ (∀ alerts : list pyval,
      forallb level_is_text alerts = true →
      ∃ counts : gmap string Z,
        _count_alerts_by_level (PList alerts) = Ok counts
        ∧ counts !! "info" = Some (tally "info" alerts)
        ∧ counts !! "warning" = Some (tally "warning" alerts)
        ∧ counts !! "critical" = Some (tally "critical" alerts))
  ∧ _count_alerts_by_level (PList [])
    = Ok (<["critical" := 0]> (<["warning" := 0]> (<["info" := 0]> ∅)))
  ∧ (∃ counts : gmap string Z,
      _count_alerts_by_level (PList sample_alerts) = Ok counts
      ∧ counts !! "info" = Some 1
      ∧ counts !! "warning" = Some 2
      ∧ counts !! "critical" = Some 1).
Proof.
  assert (Hcount : ∀ alerts : list pyval,
    forallb level_is_text alerts = true →
    ∃ counts : gmap string Z,
      _count_alerts_by_level (PList alerts) = Ok counts
      ∧ counts !! "info" = Some (tally "info" alerts)
      ∧ counts !! "warning" = Some (tally "warning" alerts)
      ∧ counts !! "critical" = Some (tally "critical" alerts)).
  { intros alerts Htext.
    destruct (count_alerts_lookup alerts zero_counts Htext) as (c & Hc & Hl).
    exists c. split.
    - unfold _count_alerts_by_level. destruct alerts; [|exact Hc].
      simpl in *. exact Hc.
    - rewrite !Hl. unfold zero_counts, bump.
      repeat split; simplify_map_eq; reflexivity. }
  split; [|split; [exact Hcount|split]].
  - intros alerts counts. unfold _count_alerts_by_level.
    destruct (negb (truthy alerts)).
    + intros [= <-]. apply zero_counts_dom.
    + intros H. rewrite (count_alerts_dom _ _ _ H). apply zero_counts_dom.
  - reflexivity.
  - destruct (Hcount sample_alerts eq_refl) as (c & Hc & Hi & Hw & Hcr).
    exists c. repeat split; assumption.
Qed.

Lemma count_alerts_by_level_all_levels_witness :
  forallb level_is_text sample_alerts = true
  ∧ ∃ counts : gmap string Z,
      _count_alerts_by_level (PList sample_alerts) = Ok counts
      ∧ dom counts = ({["info"; "warning"; "critical"]} : gset string)
      ∧ counts !! "warning" = Some (tally "warning" sample_alerts).
Proof.
  split; [reflexivity|].
  destruct count_alerts_by_level_all_levels as (Hdom & Hcount & _).
  destruct (Hcount sample_alerts eq_refl) as (c & Hc & _ & Hw & _).
  exists c. split; [exact Hc|]. split; [exact (Hdom _ _ Hc) | exact Hw].
Defined.

End CountAlerts.

(** ** The summary of a snapshot *)

Module Summary.

Import Value ReportGenerator.

Definition summary_keys : gset string :=
  {["cpu_usage"; "memory_usage"; "disk_count"; "network_interfaces";
    "gpu_count"; "temperature_max"]}.

(** [metrics.get('memory', {}).get(key)] when the memory record is a
    dictionary, [None] otherwise. *)
Definition memory_field (metrics : pyval) (key : string) : pyval :=
  match metrics with
  | PDict items =>
      match dict_get items "memory" (PDict []) with
      | PDict fields => dict_get fields key PNone
      | _ => PNone
      end
  | _ => PNone
  end.

(** A temperature reading a collector writes: a number, or a value that
    counts as no reading ([None], an empty value). *)
Definition reading_shaped (t : pyval) : bool :=
  negb (truthy t) || is_number t.

Definition gpu_shaped (gpu : pyval) : bool :=
  match gpu with
  | PDict items => reading_shaped (dict_get items "temperature_celsius" PNone)
  | _ => true
  end.

Definition temperature_shaped (temp : pyval) : bool :=
  match temp with
  | PDict items =>
      reading_shaped (dict_get items "cpu_celsius" PNone)
      && match dict_get items "gpus" (PList []) with
         | PList l => forallb gpu_shaped l
         | _ => true
         end
  | _ => true
  end.

(** The interfaces of a network record given as a dictionary have a length. *)
Definition network_shaped (network : pyval) : bool :=
  match network with
  | PDict items =>
      match dict_get items "interfaces" (PList []) with
      | PStr _ | PList _ | PDict _ => true
      | _ => false
      end
  | _ => true
  end.

(** The quotient of two numbers is in the range of a float when dividing
    them does not raise [OverflowError]. *)
Definition quotient_in_range (a b : pyval) : bool :=
  match Num.truediv a b with
  | Raise OverflowError => false
  | _ => true
  end.

(** The memory fields, when both are there and not zero, are numbers whose
    quotient is in the range of a float. *)
Definition memory_shaped (memory : pyval) : bool :=
  match memory with
  | PDict items =>
      let total := dict_get items "total_mb" PNone in
      let used := dict_get items "used_mb" PNone in
      if truthy total && truthy used
      then is_number used && is_number total && quotient_in_range used total
      else true
  | _ => true
  end.

(** The metrics [_generate_summary] is written for: nothing ([None] or an
    empty value), or a dictionary whose readings have the types of a
    snapshot. *)
Definition snapshot_shaped (metrics : pyval) : bool :=
  match metrics with
  | PDict items =>
      memory_shaped (dict_get items "memory" (PDict []))
      && network_shaped (dict_get items "network" (PList []))
      && temperature_shaped (dict_get items "temperature" (PDict []))
  | _ => negb (truthy metrics)
  end.

(** A stage of the summary keeps the keys and touches only its own. *)
Definition stage_of (own : list string) (s s' : gmap string pyval) : Prop :=
  dom s' = dom s ∧ ∀ k, k ∉ own → s' !! k = s !! k.

Lemma stage_of_refl (own : list string) (s : gmap string pyval) :
  stage_of own s s.
Proof. split; reflexivity. Qed.

Lemma stage_of_insert (own : list string) (s : gmap string pyval)
  (k : string) (v : pyval) :
  k ∈ own → k ∈ dom s → stage_of own s (<[k := v]> s).
Proof.
  intros Hown Hdom. split.
  - apply set_eq. intros j. rewrite dom_insert_L, elem_of_union, elem_of_singleton.
    split; [intros [->|Hj]; assumption | auto].
  - intros j Hj. apply lookup_insert_ne. intros ->. contradiction.
Qed.

Lemma initial_summary_dom : dom initial_summary = summary_keys.
Proof.
  unfold initial_summary, summary_keys.
  rewrite !dom_insert_L, dom_empty_L.
  apply set_eq. intros k.
  rewrite !elem_of_union, !elem_of_singleton, elem_of_empty. tauto.
Qed.

Lemma summary_keys_elem (k : string) :
  k ∈ summary_keys ↔
  k ∈ ["cpu_usage"; "memory_usage"; "disk_count"; "network_interfaces";
       "gpu_count"; "temperature_max"].
Proof.
  unfold summary_keys.
  rewrite !elem_of_union, !elem_of_singleton, !elem_of_cons, elem_of_nil. tauto.
Qed.

(** *** Numbers do not raise *)

Lemma truediv_defined (a b : pyval) :
  is_number a = true → is_number b = true → truthy b = true →
  quotient_in_range a b = true →
  ∃ q, Num.truediv a b = Ok q.
Proof.
  unfold quotient_in_range.
  destruct a as [| [] | m | x | | |], b as [| [] | n | y | | |];
    simpl; try discriminate; intros _ _ Hb;
    unfold Num.int_truediv, Num.float_truediv, Num.float_of_int; simpl;
    repeat match goal with
    | |- context [if ?c then _ else _] => destruct c eqn:?; simpl
    end;
    try discriminate; eauto.
Qed.

Lemma gt_number (a b : pyval) :
  is_number a = true → is_number b = true → ∃ c, Num.gt a b = Ok c.
Proof.
  unfold Num.gt.
  destruct a, b; simpl; try discriminate; eauto.
Qed.

Lemma max_from_numbers (items : list pyval) :
  ∀ best, is_number best = true → forallb is_number items = true →
    ∃ v, Num.max_from best items = Ok v ∧ is_number v = true.
Proof.
  induction items as [|item rest IH]; simpl; intros best Hbest Hitems.
  - eauto.
  - apply andb_true_iff in Hitems as [Hitem Hrest].
    destruct (gt_number item best Hitem Hbest) as [c ->]. simpl.
    apply IH; [destruct c|]; assumption.
Qed.

Lemma reading_positive_shaped (t : pyval) :
  reading_shaped t = true →
  ∃ c, reading_positive t = Ok c ∧ (c = true → is_number t = true).
Proof.
  unfold reading_shaped, reading_positive. intros Ht.
  destruct (truthy t); simpl in Ht.
  - destruct (gt_number t (PInt 0) Ht eq_refl) as [c ->]. eauto.
  - exists false. split; [reflexivity | discriminate].
Qed.

Lemma gpu_temps_shaped (gpus : list pyval) :
  ∀ temps, forallb is_number temps = true → forallb gpu_shaped gpus = true →
    ∃ temps', gpu_temps temps gpus = Ok temps'
              ∧ forallb is_number temps' = true.
Proof.
  induction gpus as [|gpu rest IH]; simpl; intros temps Htemps Hgpus.
  - eauto.
  - apply andb_true_iff in Hgpus as [Hgpu Hrest].
    destruct gpu; simpl in *; try (apply IH; assumption).
    destruct (reading_positive_shaped _ Hgpu) as (hot & -> & Hhot). simpl.
    apply IH; [|assumption].
    destruct hot; [|assumption].
    rewrite forallb_app, Htemps. simpl. rewrite Hhot; reflexivity.
Qed.

Lemma max_or_zero_numbers (temps : list pyval) :
  forallb is_number temps = true → ∃ v, max_or_zero temps = Ok v.
Proof.
  destruct temps as [|first rest]; simpl; [eauto|].
  intros H. apply andb_true_iff in H as [Hfirst Hrest].
  destruct (max_from_numbers rest first Hfirst Hrest) as (v & -> & _). eauto.
Qed.

(** *** The stages of [_generate_summary] on a dictionary *)

Section Stages.

Variable items : list (string * pyval).
Variable s : gmap string pyval.
Hypothesis s_dom : dom s = summary_keys.

Local Ltac in_list :=
  repeat first [apply list_elem_of_here | apply list_elem_of_further].

Local Ltac key_in_dom :=
  rewrite s_dom; apply summary_keys_elem; in_list.

Lemma summary_cpu_stage :
  ∃ s', summary_cpu (PDict items) s = Ok s' ∧ stage_of ["cpu_usage"] s s'.
Proof.
  unfold summary_cpu. simpl.
  destruct (dict_get items "cpu" (PDict []));
    eexists; (split; [reflexivity|]); try apply stage_of_refl.
  apply stage_of_insert; [in_list | key_in_dom].
Qed.

Lemma summary_memory_stage :
  memory_shaped (dict_get items "memory" (PDict [])) = true →
  let total := memory_field (PDict items) "total_mb" in
  let used := memory_field (PDict items) "used_mb" in
  ∃ s', summary_memory (PDict items) s = Ok s'
    ∧ stage_of ["memory_usage"] s s'
    ∧ (truthy total && truthy used = true →
       ∃ q, Num.truediv used total = Ok q
            ∧ s' !! "memory_usage"
              = Some (PFloat (F64.round1 (F64.mul q (F64.of_Z 100)))))
    ∧ (truthy total && truthy used = false →
       s' !! "memory_usage" = s !! "memory_usage").
Proof.
  unfold summary_memory, memory_shaped, memory_field. simpl.
  destruct (dict_get items "memory" (PDict [])) as [| | | | | |fields];
    try (intros _; exists s; repeat split; try apply stage_of_refl;
         simpl; discriminate).
  destruct (truthy (dict_get fields "total_mb" PNone)
            && truthy (dict_get fields "used_mb" PNone)) eqn:Hboth.
  - intros Hshape.
    apply andb_true_iff in Hshape as [Hshape Hrange].
    apply andb_true_iff in Hshape as [Hused Htotal].
    apply andb_true_iff in Hboth as [Htruthy _].
    destruct (truediv_defined _ _ Hused Htotal Htruthy Hrange) as [q Hq].
    unfold memory_percent. rewrite Hq. simpl.
    eexists. split; [reflexivity|]. split; [|split].
    + apply stage_of_insert; [in_list | key_in_dom].
    + intros _. exists q. split; [reflexivity | apply lookup_insert_eq].
    + discriminate.
  - intros _. exists s. repeat split; try apply stage_of_refl. discriminate.
Qed.

Lemma summary_disk_stage :
  ∃ s', summary_disk (PDict items) s = Ok s' ∧ stage_of ["disk_count"] s s'.
Proof.
  unfold summary_disk. simpl.
  destruct (dict_get items "disk" (PList []));
    eexists; (split; [reflexivity|]); try apply stage_of_refl.
  apply stage_of_insert; [in_list | key_in_dom].
Qed.

Lemma summary_network_stage :
  network_shaped (dict_get items "network" (PList [])) = true →
  ∃ s', summary_network (PDict items) s = Ok s'
        ∧ stage_of ["network_interfaces"] s s'.
Proof.
  unfold summary_network, network_shaped. simpl.
  destruct (dict_get items "network" (PList [])) as [| | | | | |fields];
    try (intros _; eexists; split; [reflexivity|];
         apply stage_of_insert; [in_list | key_in_dom]).
  destruct (dict_get fields "interfaces" (PList []));
    try discriminate; intros _; simpl;
    (eexists; split; [reflexivity|]);
    (apply stage_of_insert; [in_list | key_in_dom]).
Qed.

Lemma summary_temperature_stage :
  temperature_shaped (dict_get items "temperature" (PDict [])) = true →
  ∃ s', summary_temperature (PDict items) s = Ok s'
        ∧ stage_of ["gpu_count"; "temperature_max"] s s'.
Proof.
  unfold summary_temperature, temperature_shaped. simpl.
  destruct (dict_get items "temperature" (PDict [])) as [| | | | | |fields];
    try (intros _; exists s; split; [reflexivity | apply stage_of_refl]).
  intros Hshape. apply andb_true_iff in Hshape as [Hcpu Hgpus].
  destruct (reading_positive_shaped _ Hcpu) as (hot & -> & Hhot). simpl.
  set (temps := if hot then [dict_get fields "cpu_celsius" PNone] else []).
  assert (Htemps : forallb is_number temps = true).
  { subst temps. destruct hot; simpl; [rewrite Hhot|]; reflexivity. }
  destruct (dict_get fields "gpus" (PList [])) as [| | | | |gpus|]; simpl;
    try (destruct (max_or_zero_numbers temps Htemps) as [v ->]; simpl;
         eexists; split; [reflexivity|];
         apply stage_of_insert; [in_list | key_in_dom]).
  destruct (gpu_temps_shaped gpus temps Htemps Hgpus) as (temps' & -> & Htemps').
  simpl. destruct (max_or_zero_numbers temps' Htemps') as [v ->]. simpl.
  eexists. split; [reflexivity|].
  assert (Hcount : stage_of ["gpu_count"; "temperature_max"] s
            (<["gpu_count" := PInt (Z.of_nat (length gpus))]> s)).
  { apply stage_of_insert; [in_list | key_in_dom]. }
  split.
  - rewrite dom_insert_L. destruct Hcount as [-> _].
    apply set_eq. intros k. rewrite elem_of_union, elem_of_singleton.
    split; [intros [->|Hk]; [key_in_dom | exact Hk] | auto].
  - intros k Hk. rewrite lookup_insert_ne by (intros <-; apply Hk; in_list).
    apply Hcount. exact Hk.
Qed.

End Stages.

Lemma stage_dom (own : list string) (s s' : gmap string pyval) :
  dom s = summary_keys → stage_of own s s' → dom s' = summary_keys.
Proof. intros Hs [Hd _]. congruence. Qed.

(** A snapshot of a host with a CPU, memory, one disk, two interfaces and
    two GPUs, one of them without a reading. *)
Definition sample_metrics : pyval :=
  PDict
    [ ("timestamp", PStr "2025-12-17T10:00:00Z");
      ("cpu", PDict [("usage_percent", PFloat (F64.div_Z 455 10))]);
      ("memory", PDict [("total_mb", PInt 16384); ("used_mb", PInt 5000)]);
      ("disk", PList [PDict [("device", PStr "C:")]]);
      ("network", PDict [("interfaces", PList [PStr "eth0"; PStr "lo"])]);
      ("temperature",
       PDict [ ("cpu_celsius", PInt 45);
               ("gpus",
                PList [ PDict [("temperature_celsius", PFloat (F64.div_Z 615 10))];
                        PDict [("temperature_celsius", PNone)] ]) ]) ].

(** A snapshot whose CPU temperature is text. *)
Definition text_temperature_metrics : pyval :=
  PDict [("temperature", PDict [("cpu_celsius", PStr "hot")])].

(** A snapshot whose memory fields are text. *)
Definition text_memory_metrics : pyval :=
  PDict [("memory", PDict [("total_mb", PStr "16384"); ("used_mb", PStr "5000")])].

Example generate_summary_sample :
  _generate_summary sample_metrics
  = Ok (<["cpu_usage" := PFloat (F64.div_Z 455 10)]>
       (<["memory_usage" := PFloat (F64.div_Z 305 10)]>
       (<["disk_count" := PInt 1]>
       (<["network_interfaces" := PInt 2]>
       (<["gpu_count" := PInt 2]>
       (<["temperature_max" := PFloat (F64.div_Z 615 10)]> ∅)))))).
Proof. vm_compute. reflexivity. Qed.

Example generate_summary_text_memory :
  _generate_summary text_memory_metrics = Raise TypeError.
Proof. reflexivity. Qed.

Example generate_summary_list :
  _generate_summary (PList [PInt 1]) = Raise AttributeError.
Proof. reflexivity. Qed.

Example generate_summary_zero_total :
  ∃ summary,
    _generate_summary
      (PDict [("memory", PDict [("total_mb", PInt 0); ("used_mb", PInt 5000)])])
    = Ok summary
    ∧ summary !! "memory_usage" = Some (PInt 0).
Proof. eexists. split; [reflexivity|]. vm_compute. reflexivity. Qed.




End Summary.

(** ** The rolling window of chart data

    The loop of [test_rolling_window_maintains_size]
    (tests/python/test_chart_data.py):
<<
    window.append({"value": i, "timestamp": i})
    if len(window) > max_size:
        window.pop(0)
>>
*)

Module RollingWindow.

Local Open Scope nat_scope.

Section Window.

Context {A : Type}.

(** One turn of the loop. [pop(0)] is reached with the point just appended
    in the list, so it has an item to remove. *)
Definition append_point (max_size : nat) (window : list A) (point : A)
  : list A :=
  let window := window ++ [point] in
  if max_size <? length window then tail window else window.

(** The loop, from the empty window. *)
Definition feed (max_size : nat) (points : list A) : list A :=
  fold_left (append_point max_size) points [].

Lemma append_point_drop (max_size : nat) (window : list A) (point : A) :
  length window ≤ max_size →
  append_point max_size window point
  = drop (length (window ++ [point]) - max_size) (window ++ [point]).
Proof.
  intros Hlen. unfold append_point. cbn zeta.
  destruct (Nat.ltb_spec max_size (length (window ++ [point]))) as [Hfull|Hroom].
  - rewrite length_app in *. simpl in *.
    replace (length window + 1 - max_size) with 1 by lia.
    destruct window; reflexivity.
  - replace (length (window ++ [point]) - max_size) with 0 by lia.
    reflexivity.
Qed.

Lemma append_point_length (max_size : nat) (window : list A) (point : A) :
  length window ≤ max_size →
  length (append_point max_size window point) ≤ max_size.
Proof.
  intros Hlen. rewrite append_point_drop by exact Hlen.
  rewrite length_drop, length_app. simpl. lia.
Qed.

(** The oldest point leaves a full window. *)
Lemma append_point_evicts (oldest : A) (window : list A) (point : A) :
  append_point (length (oldest :: window)) (oldest :: window) point
  = window ++ [point].
Proof.
  unfold append_point. cbn zeta.
  destruct (Nat.ltb_spec (length (oldest :: window))
              (length ((oldest :: window) ++ [point]))) as [_|Hroom].
  - reflexivity.
  - rewrite length_app in Hroom. simpl in Hroom. lia.
Qed.

Lemma fold_append_point (max_size : nat) (points : list A) :
  ∀ window, length window ≤ max_size →
    fold_left (append_point max_size) points window
    = drop (length (window ++ points) - max_size) (window ++ points).
Proof.
  induction points as [|point rest IH]; intros window Hlen.
  - simpl. rewrite app_nil_r.
    replace (length window - max_size) with 0 by lia. reflexivity.
  - simpl. rewrite IH by (apply append_point_length; exact Hlen).
    rewrite append_point_drop by exact Hlen.
    set (k := length (window ++ [point]) - max_size).
    assert (Hk : k ≤ length (window ++ [point]))
      by (subst k; lia).
    rewrite <- (drop_app_le _ rest k Hk), drop_drop, <- app_assoc. simpl.
    f_equal. rewrite length_drop. subst k.
    rewrite !length_app. simpl. lia.
Qed.

Lemma feed_drop (max_size : nat) (points : list A) :
  feed max_size points = drop (length points - max_size) points.
Proof. unfold feed. rewrite fold_append_point by (simpl; lia). reflexivity. Qed.

Lemma feed_length (max_size : nat) (points : list A) :
  length (feed max_size points) = Nat.min (length points) max_size.
Proof. rewrite feed_drop, length_drop. lia. Qed.

End Window.

(** The point the test appends at turn [i]. *)
Definition test_point (i : nat) : pyval :=
  PDict [("value", PInt (Z.of_nat i)); ("timestamp", PInt (Z.of_nat i))].

(** C2. A window fed from empty never holds more than its capacity,
    whatever is appended and however far the feeding has got; appending to
    a full window removes its oldest point and puts the new point last; the
    window holds the last [max_size] points appended, in the order they
    came. With capacity 60 and the points 0 to 99 of the test, the window
    ends with exactly the 60 points 40 to 99: its first point is the 41st
    appended and its last the 100th. *)
Theorem rolling_window_keeps_last_points :
  (∀ (A : Type) (max_size n : nat) (points : list A),
      length (feed max_size (take n points)) ≤ max_size)
  ∧ (∀ (A : Type) (oldest : A) (window : list A) (point : A),
      append_point (length (oldest :: window)) (oldest :: window) point
      = window ++ [point])
  ∧ (∀ (A : Type) (max_size : nat) (points : list A),
      feed max_size points = drop (length points - max_size) points)
  ∧ feed 60 (test_point <$> seq 0 100) = test_point <$> seq 40 60
  ∧ feed 60 (test_point <$> seq 0 100) !! 0
    = (test_point <$> seq 0 100) !! 40
  ∧ feed 60 (test_point <$> seq 0 100) !! 0 = Some (test_point 40)
  ∧ last (feed 60 (test_point <$> seq 0 100)) = Some (test_point 99)
  ∧ length (feed 60 (test_point <$> seq 0 100)) = 60.
Proof.
  split; [|split; [|split]].
  - intros A max_size n points. rewrite feed_length. lia.
  - intros A oldest window point. apply append_point_evicts.
  - intros A max_size points. apply feed_drop.
  - repeat split; vm_compute; reflexivity.
Qed.

End RollingWindow.

(** ** Signs of rounded results *)

Module F64Sign.

Import F64.

(** [x] is a zero, a finite number or an infinity with sign bit [s]. *)
Definition sign_is (s : bool) (x : float) : Prop :=
  match x with
  | S754_zero s' | S754_infinity s' | S754_finite s' _ _ => s' = s
  | S754_nan => False
  end.

Lemma iter_pos_invariant {A : Type} (P : A → Prop) (f : A → A) :
  (∀ x, P x → P (f x)) → ∀ n x, P x → P (SpecFloat.iter_pos f n x).
Proof.
  intros Hf. induction n as [n IH|n IH|]; simpl; intros x Hx; auto.
Qed.

Lemma shr_1_nonneg (mrs : shr_record) :
  0 ≤ shr_m mrs → 0 ≤ shr_m (shr_1 mrs).
Proof.
  destruct mrs as [m r s]. simpl.
  destruct m as [|p|p]; [simpl; lia | destruct p; simpl; lia | lia].
Qed.

Lemma shr_nonneg (mrs : shr_record) (e n : Z) :
  0 ≤ shr_m mrs → 0 ≤ shr_m (fst (shr mrs e n)).
Proof.
  intros H. destruct n; simpl; try exact H.
  apply (iter_pos_invariant (λ r, 0 ≤ shr_m r)); [apply shr_1_nonneg | exact H].
Qed.

Lemma shr_fexp_nonneg (m e : Z) (l : location) :
  0 ≤ m → 0 ≤ shr_m (fst (shr_fexp prec emax m e l)).
Proof.
  intros H. unfold shr_fexp. apply shr_nonneg.
  destruct l as [|[]]; exact H.
Qed.

Lemma round_nearest_even_nonneg (m : Z) (l : location) :
  0 ≤ m → 0 ≤ round_nearest_even m l.
Proof.
  intros H. destruct l as [|[]]; simpl; try destruct (Z.even m); lia.
Qed.

Lemma binary_round_aux_sign (s : bool) (m e : Z) (l : location) :
  0 ≤ m → sign_is s (binary_round_aux prec emax s m e l).
Proof.
  intros H. unfold binary_round_aux.
  pose proof (shr_fexp_nonneg m e l H) as H1.
  destruct (shr_fexp prec emax m e l) as [mrs1 e1]. simpl in H1.
  pose proof (shr_fexp_nonneg _ e1 loc_Exact
                (round_nearest_even_nonneg _ (loc_of_shr_record mrs1) H1)) as H2.
  destruct (shr_fexp prec emax _ e1 loc_Exact) as [mrs2 e2]. simpl in H2.
  destruct (shr_m mrs2) as [|p|p]; simpl; [reflexivity| |lia].
  destruct (e2 <=? emax - prec); reflexivity.
Qed.

Lemma div_core_nonneg (m1 m2 : positive) (e1 e2 : Z) :
  0 ≤ fst (fst (SFdiv_core_binary prec emax (Z.pos m1) e1 (Z.pos m2) e2)).
Proof.
  unfold SFdiv_core_binary.
  set (shift := e1 - e2 - _).
  set (m' := match shift with Z0 => _ | Z.pos _ => _ | Z.neg _ => _ end).
  assert (Hm' : 0 ≤ m').
  { subst m'. destruct shift; [lia | apply Z.shiftl_nonneg; lia | lia]. }
  pose proof (Z.div_pos m' (Z.pos m2) Hm' eq_refl) as Hq.
  unfold Z.div in Hq.
  destruct (Z.div_eucl m' (Z.pos m2)) as [q r]. exact Hq.
Qed.

(** A quotient of finite floats has the sign of the signs. *)
Lemma div_finite_sign (sx sy : bool) (mx my : positive) (ex ey : Z) :
  sign_is (xorb sx sy)
    (SFdiv prec emax (S754_finite sx mx ex) (S754_finite sy my ey)).
Proof.
  unfold SFdiv.
  pose proof (div_core_nonneg mx my ex ey) as H.
  destruct (SFdiv_core_binary prec emax (Z.pos mx) ex (Z.pos my) ey)
    as [[mz ez] lz].
  apply binary_round_aux_sign. exact H.
Qed.

(** Dividing by a finite float keeps track of the sign. *)
Lemma div_sign (sx sy : bool) (x : float) (my : positive) (ey : Z) :
  sign_is sx x → sign_is (xorb sx sy) (div x (S754_finite sy my ey)).
Proof.
  destruct x as [s|s| |s mx ex]; simpl; try (intros ->; reflexivity);
    [contradiction|].
  intros ->. apply div_finite_sign.
Qed.

Lemma of_Z_sign (n : Z) : sign_is (n <? 0) (of_Z n).
Proof.
  unfold of_Z, binary_normalize, binary_round.
  destruct n as [|p|p]; [reflexivity| |];
    destruct (shl_align _ _ _) as [mz ez];
    apply binary_round_aux_sign; lia.
Qed.

Lemma div_Z_sign (a b : Z) :
  b ≠ 0 → sign_is (xorb (a <? 0) (b <? 0)) (div_Z a b).
Proof.
  intros Hb. unfold div_Z.
  destruct a as [|p|p], b as [|q|q]; try contradiction; try reflexivity;
    apply div_finite_sign.
Qed.

Lemma sign_is_nonneg (x : float) : sign_is false x → nonneg x = true.
Proof. destruct x; simpl; try intros ->; try reflexivity; contradiction. Qed.

End F64Sign.

(** ** Rounding to binary64

    What the rounding of [SpecFloat] does to a mantissa of at least 53
    bits in the normal range: it keeps the 53 leading bits and may add one
    to the last, so the float is one of the two neighbours of the number,
    within the factor [1 + 2 ^ -52] of it. The same holds for the float of
    an integer and for the quotient of two floats. *)

Module F64Round.

Import F64 F64Sign.

(** *** The bits of a mantissa *)

Lemma digits2_size (p : positive) : digits2_pos p = Pos.size p.
Proof. induction p as [p IH|p IH|]; simpl; congruence. Qed.

(** A mantissa of [d] bits is at least [2 ^ (d - 1)] and below [2 ^ d]. *)
Lemma digits2_bounds (p : positive) :
  2 ^ (Z.pos (digits2_pos p) - 1) ≤ Z.pos p < 2 ^ Z.pos (digits2_pos p).
Proof.
  rewrite digits2_size.
  pose proof (Pos.size_gt p) as Hgt. pose proof (Pos.size_le p) as Hle.
  apply Pos2Z.pos_lt_pos in Hgt. apply Pos2Z.pos_le_pos in Hle.
  rewrite Pos2Z.inj_pow in Hgt, Hle.
  change (Z.pos p~0) with (2 * Z.pos p) in Hle.
  change (Z.pos 2) with 2 in *.
  replace (Z.pos (Pos.size p)) with (Z.succ (Z.pos (Pos.size p) - 1)) in Hle by lia.
  rewrite Z.pow_succ_r in Hle by lia. lia.
Qed.

(** And the interval tells the number of bits. *)
Lemma digits2_unique (p : positive) (d : Z) :
  2 ^ (d - 1) ≤ Z.pos p < 2 ^ d → Z.pos (digits2_pos p) = d.
Proof.
  intros [Hlo Hhi]. pose proof (digits2_bounds p) as [Hlo' Hhi'].
  destruct (Z.lt_trichotomy (Z.pos (digits2_pos p)) d) as [H|[H|H]];
    [|exact H|].
  - assert (2 ^ Z.pos (digits2_pos p) ≤ 2 ^ (d - 1))
      by (apply Z.pow_le_mono_r; lia).
    lia.
  - assert (0 ≤ d).
    { destruct (Z.le_gt_cases 0 d) as [?|Hneg]; [assumption|].
      rewrite (Z.pow_neg_r 2 d) in Hhi by lia. lia. }
    assert (2 ^ d ≤ 2 ^ (Z.pos (digits2_pos p) - 1))
      by (apply Z.pow_le_mono_r; lia).
    lia.
Qed.

(** *** Shifting a mantissa to the right *)

Lemma shr_1_m (mrs : shr_record) :
  0 ≤ shr_m mrs → shr_m (shr_1 mrs) = shr_m mrs / 2.
Proof.
  destruct mrs as [m r s]. simpl. intros Hm.
  destruct m as [|p|p]; [reflexivity| |lia].
  destruct p as [p|p|]; simpl shr_m.
  - apply (Z.div_unique (Z.pos p~1) 2 (Z.pos p) 1); lia.
  - apply (Z.div_unique (Z.pos p~0) 2 (Z.pos p) 0); lia.
  - reflexivity.
Qed.

Lemma pow2_xI (n : positive) : 2 ^ Z.pos n~1 = 2 * 2 ^ Z.pos n * 2 ^ Z.pos n.
Proof.
  replace (Z.pos n~1) with (1 + Z.pos n + Z.pos n) by lia.
  rewrite !Z.pow_add_r by lia. reflexivity.
Qed.

Lemma pow2_xO (n : positive) : 2 ^ Z.pos n~0 = 2 ^ Z.pos n * 2 ^ Z.pos n.
Proof.
  replace (Z.pos n~0) with (Z.pos n + Z.pos n) by lia.
  rewrite Z.pow_add_r by lia. reflexivity.
Qed.

Lemma iter_shr_1_m (n : positive) (mrs : shr_record) :
  0 ≤ shr_m mrs →
  0 ≤ shr_m (SpecFloat.iter_pos shr_1 n mrs)
  ∧ shr_m (SpecFloat.iter_pos shr_1 n mrs) = shr_m mrs / 2 ^ Z.pos n.
Proof.
  revert mrs. induction n as [n IH|n IH|]; intros mrs Hm; simpl.
  - pose proof (shr_1_nonneg mrs Hm) as H1.
    destruct (IH _ H1) as [H2 E2]. destruct (IH _ H2) as [H3 E3].
    split; [exact H3|]. rewrite E3, E2, shr_1_m by exact Hm.
    assert (0 < 2 ^ Z.pos n) by (apply Z.pow_pos_nonneg; lia).
    rewrite !Z.div_div by lia.
    rewrite pow2_xI. f_equal. ring.
  - destruct (IH _ Hm) as [H2 E2]. destruct (IH _ H2) as [H3 E3].
    split; [exact H3|]. rewrite E3, E2.
    assert (0 < 2 ^ Z.pos n) by (apply Z.pow_pos_nonneg; lia).
    rewrite !Z.div_div by lia.
    rewrite pow2_xO. reflexivity.
  - split; [apply shr_1_nonneg, Hm|]. rewrite shr_1_m by exact Hm.
    reflexivity.
Qed.

Lemma div_pow2_bounds (p d k : Z) :
  2 ^ (d - 1) ≤ p < 2 ^ d → 0 ≤ k ≤ d - 1 →
  2 ^ (d - 1 - k) ≤ p / 2 ^ k < 2 ^ (d - k).
Proof.
  intros [Hlo Hhi] Hk.
  assert (HK : 0 < 2 ^ k) by (apply Z.pow_pos_nonneg; lia).
  split.
  - apply Z.div_le_lower_bound; [exact HK|].
    rewrite <- Z.pow_add_r by lia.
    replace (k + (d - 1 - k)) with (d - 1) by lia. exact Hlo.
  - apply Z.div_lt_upper_bound; [exact HK|].
    rewrite <- Z.pow_add_r by lia.
    replace (k + (d - k)) with d by lia. exact Hhi.
Qed.

(** The exponent of a number of the normal range. *)
Lemma fexp_normal (x : Z) : -1021 ≤ x → fexp prec emax x = x - 53.
Proof. unfold fexp, emin, prec, emax. lia. Qed.

(** A mantissa of at least 53 bits is cut to its 53 leading bits. *)
Lemma shr_fexp_spec (p : positive) (e : Z) (l : location) :
  53 ≤ Z.pos (digits2_pos p) → -1021 ≤ Z.pos (digits2_pos p) + e →
  ∃ mrs,
    shr_fexp prec emax (Z.pos p) e l = (mrs, e + (Z.pos (digits2_pos p) - 53))
    ∧ shr_m mrs = Z.pos p / 2 ^ (Z.pos (digits2_pos p) - 53).
Proof.
  intros Hd He. unfold shr_fexp.
  change (Zdigits2 (Z.pos p)) with (Z.pos (digits2_pos p)).
  rewrite fexp_normal by lia.
  replace (Z.pos (digits2_pos p) + e - 53 - e)
    with (Z.pos (digits2_pos p) - 53) by lia.
  assert (Hm : shr_m (shr_record_of_loc (Z.pos p) l) = Z.pos p)
    by (destruct l as [|[]]; reflexivity).
  destruct (Z.pos (digits2_pos p) - 53) as [|k|k] eqn:Hk; [| |lia].
  - eexists. split; [simpl; f_equal; lia|].
    rewrite Hm, Z.div_1_r. reflexivity.
  - eexists. split; [reflexivity|].
    rewrite <- Hm at 2. apply iter_shr_1_m. rewrite Hm. lia.
Qed.

Lemma round_nearest_even_cases (m : Z) (l : location) :
  round_nearest_even m l = m ∨ round_nearest_even m l = m + 1.
Proof.
  destruct l as [|[]]; simpl; try destruct (Z.even m); auto.
Qed.

(** Rounding a mantissa [p] of at least 53 bits, at an exponent of the
    normal range: the result is a float of 53 bits, one of the two
    neighbours of the number among the floats of its exponent. *)
Lemma binary_round_aux_faithful (s : bool) (p : positive) (e : Z) (l : location) :
  let d := Z.pos (digits2_pos p) in
  53 ≤ d → -1021 ≤ d + e ≤ 1023 →
  ∃ (mR : positive) (eR : Z),
    binary_round_aux prec emax s (Z.pos p) e l = S754_finite s mR eR
    ∧ Z.pos (digits2_pos mR) = 53
    ∧ e + (d - 53) ≤ eR ≤ e + (d - 53) + 1
    ∧ Z.pos mR * 2 ^ (eR - e) - 2 ^ (d - 53) ≤ Z.pos p
    ∧ Z.pos p + 1 ≤ Z.pos mR * 2 ^ (eR - e) + 2 ^ (d - 53).
Proof.
  intros d Hd [He Hmax]. subst d.
  set (d := Z.pos (digits2_pos p)) in *. set (k := d - 53).
  unfold binary_round_aux.
  destruct (shr_fexp_spec p e l Hd He) as (mrs1 & E1 & Hm1). rewrite E1.
  fold d in Hm1. fold d. fold k in Hm1. fold k.
  pose proof (digits2_bounds p) as Hp. fold d in Hp.
  pose proof (div_pow2_bounds (Z.pos p) d k Hp ltac:(lia)) as Hq.
  replace (d - 1 - k) with 52 in Hq by lia.
  replace (d - k) with 53 in Hq by lia.
  assert (HK : 0 < 2 ^ k) by (apply Z.pow_pos_nonneg; lia).
  pose proof (Z.div_mod (Z.pos p) (2 ^ k) ltac:(lia)) as Hdm.
  pose proof (Z.mod_pos_bound (Z.pos p) (2 ^ k) HK) as Hr.
  set (q := Z.pos p / 2 ^ k) in *. set (K := 2 ^ k) in *.
  set (r := Z.pos p mod K) in *.
  rewrite Hm1.
  set (m1 := round_nearest_even q (loc_of_shr_record mrs1)).
  assert (Hm1' : m1 = q ∨ m1 = q + 1) by apply round_nearest_even_cases.
  change (2 ^ 52) with 4503599627370496 in Hq.
  change (2 ^ 53) with 9007199254740992 in Hq.
  destruct m1 as [|p1|p1] eqn:Ep1; [lia| |lia].
  destruct (Z.lt_ge_cases (Z.pos p1) 9007199254740992) as [Hlt|Hge].
  - assert (Hd1 : Z.pos (digits2_pos p1) = 53).
    { apply digits2_unique. change (2 ^ (53 - 1)) with 4503599627370496.
      change (2 ^ 53) with 9007199254740992. lia. }
    destruct (shr_fexp_spec p1 (e + k) loc_Exact ltac:(lia) ltac:(lia))
      as (mrs2 & E2 & Hm2).
    rewrite Hd1 in E2, Hm2. rewrite E2, Hm2. change (2 ^ (53 - 53)) with 1. rewrite Z.div_1_r.
    exists p1, (e + k + (53 - 53)).
    destruct (Z.leb_spec (e + k + (53 - 53)) (emax - prec)) as [_|Hover];
      [|unfold emax, prec in Hover; lia].
    split; [reflexivity|]. split; [exact Hd1|]. split; [lia|].
    replace (e + k + (53 - 53) - e) with k by lia. fold K.
    split; nia.
  - assert (Hp1 : Z.pos p1 = 9007199254740992) by lia.
    assert (Hd1 : Z.pos (digits2_pos p1) = 54).
    { apply digits2_unique. rewrite Hp1. split; [reflexivity|reflexivity]. }
    destruct (shr_fexp_spec p1 (e + k) loc_Exact ltac:(lia) ltac:(lia))
      as (mrs2 & E2 & Hm2).
    rewrite Hd1 in E2, Hm2. rewrite E2, Hm2, Hp1. change (2 ^ (54 - 53)) with 2.
    change (9007199254740992 / 2) with (Z.pos 4503599627370496).
    exists 4503599627370496%positive, (e + k + (54 - 53)).
    destruct (Z.leb_spec (e + k + (54 - 53)) (emax - prec)) as [_|Hover];
      [|unfold emax, prec in Hover; lia].
    split; [reflexivity|]. split; [reflexivity|]. split; [lia|].
    replace (e + k + (54 - 53) - e) with (k + 1) by lia.
    rewrite Z.pow_add_r by lia. fold K. change (2 ^ 1) with 2.
    split; nia.
Qed.

(** *** The division of two mantissas *)

(** The quotient of the division core: a mantissa [q] of at least 53 bits
    with [q * 2 ^ e'] the quotient of the two numbers cut to a multiple of
    [2 ^ e']. *)
Lemma div_core_spec (mx my : positive) (ex ey : Z) :
  let mu := Z.pos (digits2_pos mx) + ex - (Z.pos (digits2_pos my) + ey) in
  -1021 ≤ mu ≤ 1021 →
  ∃ (q : positive) (e' : Z) (l : location),
    SFdiv_core_binary prec emax (Z.pos mx) ex (Z.pos my) ey = (Z.pos q, e', l)
    ∧ e' ≤ ex - ey
    ∧ 53 ≤ Z.pos (digits2_pos q)
    ∧ mu ≤ Z.pos (digits2_pos q) + e' ≤ mu + 1
    ∧ Z.pos q * Z.pos my ≤ Z.pos mx * 2 ^ (ex - ey - e')
    ∧ Z.pos mx * 2 ^ (ex - ey - e') < (Z.pos q + 1) * Z.pos my.
Proof.
  intros mu Hmu. unfold SFdiv_core_binary.
  change (Zdigits2 (Z.pos mx)) with (Z.pos (digits2_pos mx)).
  change (Zdigits2 (Z.pos my)) with (Z.pos (digits2_pos my)).
  fold mu. rewrite fexp_normal by lia.
  set (d1 := Z.pos (digits2_pos mx)) in *.
  set (d2 := Z.pos (digits2_pos my)) in *.
  set (e' := Z.min (mu - 53) (ex - ey)).
  set (s := ex - ey - e').
  assert (Hs : 0 ≤ s) by (subst s e'; lia).
  assert (Hm' : match s with
                | 0 => Z.pos mx
                | Z.pos _ => Z.shiftl (Z.pos mx) s
                | Z.neg _ => 0
                end = Z.pos mx * 2 ^ s).
  { destruct s as [|k|k] eqn:Es; [rewrite Z.mul_1_r; reflexivity| |lia].
    apply Z.shiftl_mul_pow2. lia. }
  rewrite Hm'.
  pose proof (digits2_bounds mx) as [Hxlo Hxhi]. fold d1 in Hxlo, Hxhi.
  pose proof (digits2_bounds my) as [Hylo Hyhi]. fold d2 in Hylo, Hyhi.
  set (D := d1 + s - d2).
  assert (HD : 53 ≤ D) by (subst D s e' mu; lia).
  assert (Hd1 : 1 ≤ d1) by (subst d1; lia).
  assert (Hd2 : 1 ≤ d2) by (subst d2; lia).
  assert (HS : 0 < 2 ^ s) by (apply Z.pow_pos_nonneg; lia).
  (* the dividend, between two powers of two *)
  assert (Halo : 2 ^ (D - 1) * 2 ^ d2 ≤ Z.pos mx * 2 ^ s).
  { rewrite <- Z.pow_add_r by lia.
    replace (D - 1 + d2) with (d1 - 1 + s) by (subst D; lia).
    rewrite Z.pow_add_r by lia. apply Z.mul_le_mono_nonneg_r; lia. }
  assert (Hahi : Z.pos mx * 2 ^ s < 2 ^ (D + 1) * 2 ^ (d2 - 1)).
  { rewrite <- Z.pow_add_r by lia.
    replace (D + 1 + (d2 - 1)) with (d1 + s) by (subst D; lia).
    rewrite Z.pow_add_r by lia. apply Z.mul_lt_mono_pos_r; lia. }
  pose proof (Z_div_mod (Z.pos mx * 2 ^ s) (Z.pos my) eq_refl) as Hdiv.
  destruct (Z.div_eucl (Z.pos mx * 2 ^ s) (Z.pos my)) as [q r].
  destruct Hdiv as [Hdiv Hr].
  set (a := Z.pos mx * 2 ^ s) in *.
  assert (HP1 : 0 < 2 ^ (D - 1)) by (apply Z.pow_pos_nonneg; lia).
  assert (HP2 : 0 < 2 ^ (D + 1)) by (apply Z.pow_pos_nonneg; lia).
  assert (HY1 : 0 < 2 ^ (d2 - 1)) by (apply Z.pow_pos_nonneg; lia).
  assert (Hqlo : 2 ^ (D - 1) ≤ q).
  { destruct (Z.le_gt_cases (2 ^ (D - 1)) q) as [H|H]; [exact H|].
    assert ((q + 1) * Z.pos my ≤ 2 ^ (D - 1) * Z.pos my)
      by (apply Z.mul_le_mono_nonneg_r; lia).
    assert (2 ^ (D - 1) * Z.pos my ≤ 2 ^ (D - 1) * 2 ^ d2)
      by (apply Z.mul_le_mono_nonneg_l; lia).
    lia. }
  assert (Hqhi : q < 2 ^ (D + 1)).
  { destruct (Z.lt_ge_cases q (2 ^ (D + 1))) as [H|H]; [exact H|].
    assert (2 ^ (D + 1) * 2 ^ (d2 - 1) ≤ q * 2 ^ (d2 - 1))
      by (apply Z.mul_le_mono_nonneg_r; lia).
    assert (q * 2 ^ (d2 - 1) ≤ q * Z.pos my)
      by (apply Z.mul_le_mono_nonneg_l; lia).
    lia. }
  destruct q as [|q|q]; [lia| |lia].
  assert (Hdq : Z.pos (digits2_pos q) = D ∨ Z.pos (digits2_pos q) = D + 1).
  { destruct (Z.lt_ge_cases (Z.pos q) (2 ^ D)) as [H|H].
    - left. apply digits2_unique. lia.
    - right. apply digits2_unique. replace (D + 1 - 1) with D by lia. lia. }
  exists q, e', (new_location (Z.pos my) r).
  split; [reflexivity|]. split; [subst e'; lia|]. split; [lia|].
  split; [subst D s; lia|]. fold s. fold a. split; lia.
Qed.

(** *** The values of floats, as rationals *)

Definition pow2 (e : Z) : Q := (2 ^ e)%Q.

(** The magnitude of a finite float. *)
Definition value (m : positive) (e : Z) : Q := (inject_Z (Z.pos m) * pow2 e)%Q.

(** One rounding: [1 + 2 ^ -52]. *)
Definition g : Q := 4503599627370497 # 4503599627370496.

(** [X] and [Y] are within the factor [G] of each other. *)
Definition near (G X Y : Q) : Prop := (X <= Y * G)%Q ∧ (Y <= X * G)%Q.

Lemma pow2_pos (e : Z) : (0 < pow2 e)%Q.
Proof. apply Qpower_0_lt. reflexivity. Qed.

Lemma pow2_add (a b : Z) : (pow2 (a + b) == pow2 a * pow2 b)%Q.
Proof. apply Qpower_plus. discriminate. Qed.

Lemma pow2_inject (n : Z) : 0 ≤ n → (inject_Z (2 ^ n) == pow2 n)%Q.
Proof. intros H. apply (Zpower_Qpower 2 n H). Qed.

Lemma value_pos (m : positive) (e : Z) : (0 < value m e)%Q.
Proof.
  apply Qmult_lt_0_compat; [|apply pow2_pos].
  change 0%Q with (inject_Z 0). rewrite <- Zlt_Qlt. lia.
Qed.

(** The value at a lower exponent. *)
Lemma value_scale (m : positive) (e e' : Z) :
  e' ≤ e → (value m e == inject_Z (Z.pos m * 2 ^ (e - e')) * pow2 e')%Q.
Proof.
  intros H. unfold value.
  rewrite inject_Z_mult, pow2_inject by lia.
  replace e with ((e - e') + e') at 1 by lia. rewrite pow2_add. ring.
Qed.

(** A number between the multiples [p] and [p + 1] of a unit, and a
    multiple [R] of the unit next to it. *)
Lemma near_round (p R : Z) (P X Y : Q) :
  (0 < P)%Q →
  (inject_Z p * P <= X)%Q → (X <= inject_Z (p + 1) * P)%Q →
  (Y == inject_Z R * P)%Q →
  (p + 1) * 4503599627370496 ≤ R * 4503599627370497 →
  R * 4503599627370496 ≤ p * 4503599627370497 →
  near g X Y.
Proof.
  intros HP Hlo Hhi HY H1 H2.
  rewrite Zle_Qle in H1, H2. rewrite !inject_Z_mult in H1, H2.
  unfold near, g. rewrite HY. split.
  - apply Qle_trans with (1 := Hhi).
    assert (E : (inject_Z R * P * (4503599627370497 # 4503599627370496)
                 == inject_Z R * (4503599627370497 # 4503599627370496) * P)%Q)
      by ring.
    rewrite E.
    apply Qmult_le_compat_r; [|apply Qlt_le_weak, HP].
    set (a := inject_Z (p + 1)) in *. set (r := inject_Z R) in *.
    change (inject_Z 4503599627370496) with (4503599627370496 # 1) in H1.
    change (inject_Z 4503599627370497) with (4503599627370497 # 1) in H1.
    lra.
  - apply Qle_trans
      with (inject_Z p * (4503599627370497 # 4503599627370496) * P)%Q.
    + apply Qmult_le_compat_r; [|apply Qlt_le_weak, HP].
      set (a := inject_Z p) in *. set (r := inject_Z R) in *.
      change (inject_Z 4503599627370496) with (4503599627370496 # 1) in H2.
      change (inject_Z 4503599627370497) with (4503599627370497 # 1) in H2.
      lra.
    + assert (E : (inject_Z p * (4503599627370497 # 4503599627370496) * P
                   == inject_Z p * P * (4503599627370497 # 4503599627370496))%Q)
        by ring.
      rewrite E.
      apply Qmult_le_compat_r; [exact Hlo | discriminate].
Qed.

(** Rounding a mantissa of at least 53 bits that stands for a number
    [X] between [p] and [p + 1] units. *)
Lemma round_near (s : bool) (p : positive) (e : Z) (l : location) (X : Q) :
  let d := Z.pos (digits2_pos p) in
  53 ≤ d → -1021 ≤ d + e ≤ 1023 →
  (inject_Z (Z.pos p) * pow2 e <= X)%Q →
  (X <= inject_Z (Z.pos p + 1) * pow2 e)%Q →
  ∃ (mR : positive) (eR : Z),
    binary_round_aux prec emax s (Z.pos p) e l = S754_finite s mR eR
    ∧ Z.pos (digits2_pos mR) = 53
    ∧ d + e - 53 ≤ eR ≤ d + e - 52
    ∧ near g X (value mR eR).
Proof.
  intros d Hd He Hlo Hhi.
  destruct (binary_round_aux_faithful s p e l Hd He)
    as (mR & eR & E & HdR & HeR & H1 & H2).
  fold d in HeR, H1, H2.
  exists mR, eR. split; [exact E|]. split; [exact HdR|]. split; [lia|].
  pose proof (digits2_bounds p) as [Hplo _]. fold d in Hplo.
  pose proof (digits2_bounds mR) as [HRlo _]. rewrite HdR in HRlo.
  change (2 ^ (53 - 1)) with 4503599627370496 in HRlo.
  replace (d - 1) with (d - 53 + 52) in Hplo by lia.
  rewrite Z.pow_add_r in Hplo by lia.
  change (2 ^ 52) with 4503599627370496 in Hplo.
  assert (HK : 0 < 2 ^ (d - 53)) by (apply Z.pow_pos_nonneg; lia).
  assert (HKR : 2 ^ (d - 53) ≤ 2 ^ (eR - e)) by (apply Z.pow_le_mono_r; lia).
  set (K := 2 ^ (d - 53)) in *. set (S := 2 ^ (eR - e)) in *.
  assert (HR : K * 4503599627370496 ≤ Z.pos mR * S).
  { rewrite (Z.mul_comm K). apply Z.mul_le_mono_nonneg; lia. }
  set (R := Z.pos mR * S) in *.
  apply (near_round (Z.pos p) R (pow2 e)); try assumption.
  - apply pow2_pos.
  - apply value_scale. lia.
  - lia.
  - lia.
Qed.

Lemma digits2_iter_xO (p k : positive) :
  digits2_pos (Pos.iter xO p k) = (digits2_pos p + k)%positive.
Proof.
  induction k as [|k IH] using Pos.peano_ind.
  - simpl. lia.
  - rewrite Pos.iter_succ. simpl. rewrite IH. lia.
Qed.

Lemma pos_iter_xO (p k : positive) :
  Z.pos (Pos.iter xO p k) = Z.pos p * 2 ^ Z.pos k.
Proof.
  induction k as [|k IH] using Pos.peano_ind.
  - simpl. lia.
  - rewrite Pos.iter_succ.
    replace (Z.pos (Pos.iter xO p k)~0) with (2 * Z.pos (Pos.iter xO p k)) by lia.
    rewrite IH, Pos2Z.inj_succ, Z.pow_succ_r by lia. ring.
Qed.

(** The float of a positive integer [p]. *)
Lemma binary_round_near (s : bool) (p : positive) :
  let d := Z.pos (digits2_pos p) in
  d ≤ 1023 →
  ∃ (mR : positive) (eR : Z),
    binary_round prec emax s p 0 = S754_finite s mR eR
    ∧ Z.pos (digits2_pos mR) = 53
    ∧ d - 53 ≤ eR ≤ d - 52
    ∧ near g (inject_Z (Z.pos p)) (value mR eR).
Proof.
  intros d Hd. unfold binary_round. fold d.
  assert (Hd1 : 1 ≤ d) by (unfold d; lia).
  rewrite fexp_normal by lia. unfold shl_align.
  destruct (d + 0 - 53 - 0) as [|k|k] eqn:Hk.
  - destruct (round_near s p 0 loc_Exact (inject_Z (Z.pos p)))
      as (mR & eR & E & HdR & HeR & Hnear); fold d; try lia.
    + unfold pow2. simpl Qpower. rewrite Qmult_1_r. apply Qle_refl.
    + unfold pow2. simpl Qpower. rewrite Qmult_1_r.
      rewrite <- Zle_Qle. lia.
    + exists mR, eR. fold d in HeR.
      split; [exact E|]. split; [exact HdR|]. split; [lia | exact Hnear].
  - destruct (round_near s p 0 loc_Exact (inject_Z (Z.pos p)))
      as (mR & eR & E & HdR & HeR & Hnear); fold d; try lia.
    + unfold pow2. simpl Qpower. rewrite Qmult_1_r. apply Qle_refl.
    + unfold pow2. simpl Qpower. rewrite Qmult_1_r.
      rewrite <- Zle_Qle. lia.
    + exists mR, eR. fold d in HeR.
      split; [exact E|]. split; [exact HdR|]. split; [lia | exact Hnear].
  - assert (Hd' : Z.pos (digits2_pos (Pos.iter xO p k)) = 53).
    { rewrite digits2_iter_xO. fold d. lia. }
    assert (HX : (inject_Z (Z.pos (Pos.iter xO p k)) * pow2 (d + 0 - 53)
                  == inject_Z (Z.pos p))%Q).
    { rewrite pos_iter_xO, inject_Z_mult, pow2_inject by lia.
      rewrite <- Qmult_assoc, <- pow2_add.
      replace (Z.pos k + (d + 0 - 53)) with 0 by lia.
      unfold pow2. simpl Qpower. ring. }
    destruct (round_near s (Pos.iter xO p k) (d + 0 - 53) loc_Exact
                (inject_Z (Z.pos p)))
      as (mR & eR & E & HdR & HeR & Hnear); rewrite ?Hd'; try lia.
    + rewrite HX. apply Qle_refl.
    + rewrite <- HX, inject_Z_plus.
      apply Qmult_le_compat_r; [|apply Qlt_le_weak, pow2_pos].
      rewrite <- (Qplus_0_r (inject_Z (Z.pos (Pos.iter xO p k)))) at 1.
      apply Qplus_le_r. discriminate.
    + exists mR, eR. rewrite Hd' in HeR.
      split; [exact E|]. split; [exact HdR|]. split; [lia | exact Hnear].
Qed.

(** The quotient of two finite floats whose magnitudes are in range. *)
Lemma div_near (sx sy : bool) (mx my : positive) (ex ey : Z) :
  let mu := Z.pos (digits2_pos mx) + ex - (Z.pos (digits2_pos my) + ey) in
  -1021 ≤ mu ≤ 1021 →
  ∃ (mR : positive) (eR : Z),
    SFdiv prec emax (S754_finite sx mx ex) (S754_finite sy my ey)
    = S754_finite (xorb sx sy) mR eR
    ∧ Z.pos (digits2_pos mR) = 53
    ∧ mu - 53 ≤ eR ≤ mu - 51
    ∧ near g (value mx ex / value my ey) (value mR eR).
Proof.
  intros mu Hmu. unfold SFdiv.
  destruct (div_core_spec mx my ex ey Hmu)
    as (q & e' & l & E & He' & Hdq & Hmag & Hlo & Hhi).
  fold mu in Hmag. rewrite E.
  set (s := ex - ey - e') in *.
  assert (HX : (value mx ex / value my ey
                == inject_Z (Z.pos mx * 2 ^ s) / inject_Z (Z.pos my) * pow2 e')%Q).
  { unfold value. rewrite inject_Z_mult, pow2_inject by (subst s; lia).
    replace ex with (s + e' + ey) at 1 by (subst s; lia).
    rewrite !pow2_add.
    assert (Hne1 : ¬ (pow2 ey == 0)%Q).
    { intros H. pose proof (pow2_pos ey) as Hp. rewrite H in Hp. inversion Hp. }
    assert (Hne2 : ¬ (inject_Z (Z.pos my) == 0)%Q).
    { change 0%Q with (inject_Z 0). rewrite inject_Z_injective. lia. }
    field. auto. }
  assert (Hmy : (0 < inject_Z (Z.pos my))%Q).
  { change 0%Q with (inject_Z 0). rewrite <- Zlt_Qlt. lia. }
  destruct (round_near (xorb sx sy) q e' l (value mx ex / value my ey))
    as (mR & eR & ER & HdR & HeR & Hnear); try lia.
  - rewrite HX. apply Qmult_le_compat_r; [|apply Qlt_le_weak, pow2_pos].
    apply Qle_shift_div_l; [exact Hmy|].
    rewrite <- inject_Z_mult, <- Zle_Qle. exact Hlo.
  - rewrite HX. apply Qmult_le_compat_r; [|apply Qlt_le_weak, pow2_pos].
    apply Qle_shift_div_r; [exact Hmy|].
    rewrite <- inject_Z_mult, <- Zle_Qle. lia.
  - exists mR, eR.
    split; [exact ER|]. split; [exact HdR|]. split; [lia | exact Hnear].
Qed.

(** *** Composing the errors *)

Lemma near_div (G1 G2 X Y x y : Q) :
  (0 <= G1)%Q → (0 <= G2)%Q →
  (0 < X)%Q → (0 < Y)%Q → (0 < x)%Q → (0 < y)%Q →
  near G1 X x → near G2 Y y → near (G1 * G2) (X / Y) (x / y).
Proof.
  intros HG1 HG2 HX HY Hx Hy [H1 H2] [H3 H4]. split.
  - apply Qle_shift_div_r; [exact HY|].
    assert (E : (x / y * (G1 * G2) * Y == x * G1 * (Y * G2) / y)%Q).
    { field. intros H. rewrite H in Hy. inversion Hy. }
    rewrite E. apply Qle_shift_div_l; [exact Hy|].
    apply Qmult_le_compat_nonneg; split;
      try assumption; apply Qlt_le_weak; assumption.
  - apply Qle_shift_div_r; [exact Hy|].
    assert (E : (X / Y * (G1 * G2) * y == X * G1 * (y * G2) / Y)%Q).
    { field. intros H. rewrite H in HY. inversion HY. }
    rewrite E. apply Qle_shift_div_l; [exact HY|].
    apply Qmult_le_compat_nonneg; split;
      try assumption; apply Qlt_le_weak; assumption.
Qed.

Lemma near_trans (G1 G2 X Y Z : Q) :
  (0 <= G1)%Q → (0 <= G2)%Q →
  near G1 X Y → near G2 Y Z → near (G1 * G2) X Z.
Proof.
  intros HG1 HG2 [H1 H2] [H3 H4]. split.
  - apply Qle_trans with (1 := H1).
    rewrite (Qmult_comm G1), Qmult_assoc.
    apply Qmult_le_compat_r; assumption.
  - apply Qle_trans with (1 := H4).
    rewrite Qmult_assoc. apply Qmult_le_compat_r; assumption.
Qed.

Lemma near_exact (X Y : Q) : (X == Y)%Q → near 1 X Y.
Proof. intros H. split; rewrite H, Qmult_1_r; apply Qle_refl. Qed.

(** Four roundings stay within [2 ^ -49]. *)
Lemma near_four (E v : Q) :
  (0 <= E)%Q → (0 <= v)%Q → near (g * g * g * 1 * g) E v →
  (Qabs (v - E) <= E * (1 # 562949953421312))%Q.
Proof.
  intros HE Hv [H1 H2]. apply Qabs_Qle_condition.
  assert (Hup : (g * g * g * 1 * g <= 1 + (1 # 562949953421312))%Q)
    by (apply Qle_bool_iff; vm_compute; reflexivity).
  assert (Hdown : ((g * g * g * 1 * g) * (1 - (1 # 562949953421312)) <= 1)%Q)
    by (apply Qle_bool_iff; vm_compute; reflexivity).
  set (G := (g * g * g * 1 * g)%Q) in *. clearbody G.
  split; nra.
Qed.

Lemma digits2_le (p : positive) (t : Z) :
  0 ≤ t → Z.pos p < 2 ^ t → Z.pos (digits2_pos p) ≤ t.
Proof.
  intros Ht Hp. pose proof (digits2_bounds p) as [Hlo _].
  destruct (Z.le_gt_cases (Z.pos (digits2_pos p)) t) as [H|H]; [exact H|].
  assert (2 ^ t ≤ 2 ^ (Z.pos (digits2_pos p) - 1))
    by (apply Z.pow_le_mono_r; lia).
  lia.
Qed.

End F64Round.

(** ** The rate of a cumulative network counter

    The computation of [test_network_rate_calculation]
    (tests/python/test_chart_data.py):
<<
    time_delta = (curr_time - prev_time).total_seconds()
    rx_rate = (curr_rx - prev_rx) / time_delta / (1024 * 1024)  # MB/s
>>
    and the clamp of [test_handle_negative_values]: [max(0, value)].
    A time is a count of microseconds, the resolution of [datetime]. *)

Module NetworkRate.

(** [(curr_time - prev_time).total_seconds()]: the microseconds between
    the two times over [10**6]. *)
Definition total_seconds (prev_time curr_time : Z) : Py.result F64.float :=
  Num.int_truediv (curr_time - prev_time) (10 ^ 6).

(** [(curr - prev) / time_delta / (1024 * 1024)] *)
Definition network_rate (prev curr prev_time curr_time : Z)
  : Py.result F64.float :=
  time_delta ← total_seconds prev_time curr_time;
  per_second ← Num.truediv (PInt (curr - prev)) (PFloat time_delta);
  Num.truediv (PFloat per_second) (PInt (1024 * 1024)).

(** [clamped = max(0, value)] *)
Definition clamp (value : pyval) : Py.result pyval := Num.max0 value.

(** The exact value of a finite float, as a rational. *)
Definition to_Q (x : F64.float) : option Q :=
  match x with
  | S754_zero _ => Some (0 # 1)%Q
  | S754_finite s m e =>
      Some (inject_Z (if s then Z.neg m else Z.pos m) * Qpower (2 # 1) e)%Q
  | _ => None
  end.

(** The rate as the specification writes it, a rational:
    [(c1 - c0) / (t1 - t0) / 1048576], where the seconds from [t0] to [t1]
    are their microseconds over [10 ^ 6]. *)
Definition exact_rate (c0 c1 t0 t1 : Z) : Q :=
  (inject_Z (c1 - c0) / (inject_Z (t1 - t0) / inject_Z 1000000)
   / inject_Z 1048576)%Q.

Import F64Sign F64Round.

Lemma pow2_scale_pos (p : positive) (e e' : Z) :
  e' ≤ e → 0 < Z.pos p * 2 ^ (e - e').
Proof. intros H. apply Z.mul_pos_pos; [lia | apply Z.pow_pos_nonneg; lia]. Qed.

Lemma pow2_scale_neg (p : positive) (e e' : Z) :
  e' ≤ e → Z.neg p * 2 ^ (e - e') < 0.
Proof.
  intros H. apply Z.mul_neg_pos; [lia | apply Z.pow_pos_nonneg; lia].
Qed.

(** The clamp keeps a float that is not below zero, up to [0 == 0.0]. *)
Lemma clamp_nonneg (x : F64.float) :
  sign_is false x →
  ∃ v, clamp (PFloat x) = Ok v ∧ Num.eqb v (PFloat x) = true.
Proof.
  destruct x as [s|s| |s m e]; simpl; try contradiction; intros ->.
  - exists (PInt 0). split; reflexivity.
  - exists (PFloat (S754_infinity false)). split; reflexivity.
  - exists (PFloat (S754_finite false m e)).
    unfold clamp, Num.max0, Num.gt, Num.eqb. simpl.
    pose proof (pow2_scale_pos m e (Z.min e 0) (Z.le_min_l _ _)) as Hpos.
    destruct (Z.ltb_spec (0 * 2 ^ (0 - Z.min e 0))
                (Z.pos m * 2 ^ (e - Z.min e 0))) as [_|Hle]; [|lia].
    split; [reflexivity|]. simpl. rewrite Z.min_id. apply Z.eqb_refl.
Qed.

(** The clamp sends a float that is not above zero to 0. *)
Lemma clamp_nonpos (x : F64.float) :
  sign_is true x → clamp (PFloat x) = Ok (PInt 0).
Proof.
  destruct x as [s|s| |s m e]; simpl; try contradiction; intros ->;
    try reflexivity.
  unfold clamp, Num.max0, Num.gt. simpl.
  pose proof (pow2_scale_neg m e (Z.min e 0) (Z.le_min_l _ _)) as Hneg.
  destruct (Z.ltb_spec (0 * 2 ^ (0 - Z.min e 0))
              (Z.neg m * 2 ^ (e - Z.min e 0))) as [Hlt|_]; [lia|].
  reflexivity.
Qed.

(** The rate has the sign of the difference of the counters. *)
Lemma network_rate_sign (prev curr prev_time curr_time : Z) (rate : F64.float) :
  prev_time < curr_time →
  network_rate prev curr prev_time curr_time = Ok rate →
  sign_is (curr - prev <? 0) rate.
Proof.
  intros Htime. unfold network_rate, total_seconds, Num.int_truediv.
  change (10 ^ 6 =? 0) with false. cbn iota.
  pose proof (F64Sign.div_Z_sign (curr_time - prev_time) (10 ^ 6)) as Hdelta.
  destruct (F64.div_Z (curr_time - prev_time) (10 ^ 6))
    as [sd|sd| |sd md ed] eqn:Edelta; cbn [F64.is_infinity];
    cbn [mbind result_bind Py.bind]; try discriminate.
  - unfold Num.truediv, Num.float_of_int.
    destruct (F64.is_infinity (F64.of_Z (curr - prev)));
      cbn [mbind result_bind Py.bind]; discriminate.
  - specialize (Hdelta ltac:(discriminate)). contradiction.
  - specialize (Hdelta ltac:(discriminate)). simpl in Hdelta.
    replace (curr_time - prev_time <? 0) with false in Hdelta
      by (symmetry; apply Z.ltb_ge; lia).
    simpl in Hdelta. subst sd.
    unfold Num.truediv at 2, Num.float_of_int.
    pose proof (of_Z_sign (curr - prev)) as Hx.
    destruct (F64.is_infinity (F64.of_Z (curr - prev)));
      cbn [mbind result_bind Py.bind]; [discriminate|].
    unfold Num.float_truediv. cbn [F64.is_zero mbind result_bind Py.bind].
    pose proof (div_sign _ false _ md ed Hx) as Hps.
    rewrite xorb_false_r in Hps.
    set (per_second := F64.div (F64.of_Z (curr - prev)) _) in *.
    unfold Num.truediv, Num.float_of_int.
    change (F64.of_Z (1024 * 1024))
      with (S754_finite false 4503599627370496 (-32)).
    cbn [F64.is_infinity mbind result_bind Py.bind].
    change (1024 * 1024 =? 0) with false. cbn iota.
    pose proof (div_sign _ false _ 4503599627370496 (-32) Hps) as Hr.
    rewrite xorb_false_r in Hr.
    destruct per_second; intros [= <-]; exact Hr.
Qed.

(** The seconds between two times: a float of the normal range, within
    one rounding of the microseconds over a million. *)
Lemma total_seconds_near (t0 t1 : Z) :
  t0 < t1 → t1 - t0 < 2 ^ 512 →
  ∃ (mT : positive) (eT : Z),
    total_seconds t0 t1 = Ok (S754_finite false mT eT)
    ∧ Z.pos (digits2_pos mT) = 53
    ∧ -92 ≤ eT ≤ 441
    ∧ near g (inject_Z (t1 - t0) / inject_Z 1000000) (value mT eT).
Proof.
  intros Htime Hlong. unfold total_seconds, Num.int_truediv.
  change (10 ^ 6 =? 0) with false. cbn iota.
  destruct (t1 - t0) as [|n|n] eqn:En; [lia| |lia].
  pose proof (digits2_le n 512 ltac:(lia) Hlong) as Hdn. clear Hlong.
  destruct (div_near false false n 1000000 0 0)
    as (mT & eT & ET & HdT & HeT & HnT).
  { change (Z.pos (digits2_pos 1000000)) with 20. lia. }
  change (Z.pos (digits2_pos 1000000)) with 20 in HeT.
  change (xorb false false) with false in ET.
  unfold F64.div_Z. change (10 ^ 6) with (Z.pos 1000000).
  change (Z.pos n <? 0) with false. change (Z.pos 1000000 <? 0) with false.
  change (Z.to_pos (Z.abs (Z.pos n))) with n.
  change (Z.to_pos (Z.abs (Z.pos 1000000))) with 1000000%positive.
  rewrite ET. cbn [F64.is_infinity].
  exists mT, eT. split; [reflexivity|]. split; [exact HdT|]. split; [lia|].
  assert (E1 : (value n 0 == inject_Z (Z.pos n))%Q)
    by (unfold value, pow2; simpl Qpower; ring).
  assert (E2 : (value 1000000 0 == inject_Z 1000000)%Q)
    by (unfold value, pow2; simpl Qpower; ring).
  unfold near in *. rewrite <- E1, <- E2. exact HnT.
Qed.

(** The rate of two different readings: a finite float with the sign of
    the difference, within four roundings of the quotient of the
    magnitudes. *)
Lemma network_rate_near (c0 c1 t0 t1 : Z) :
  t0 < t1 → t1 - t0 < 2 ^ 512 → Z.abs (c1 - c0) < 2 ^ 512 → c1 ≠ c0 →
  ∃ (m : positive) (e : Z),
    network_rate c0 c1 t0 t1 = Ok (S754_finite (c1 - c0 <? 0) m e)
    ∧ near (g * g * g * 1 * g)
        (inject_Z (Z.abs (c1 - c0)) / (inject_Z (t1 - t0) / inject_Z 1000000)
         / inject_Z 1048576)
        (value m e).
Proof.
  intros Htime Hlong Hbig Hdiff. unfold network_rate.
  destruct (total_seconds_near t0 t1 Htime Hlong)
    as (mT & eT & ET & HdT & HeT & HnT).
  rewrite ET. cbn [mbind result_bind Py.bind]. clear Hlong.
  (* the difference of the readings *)
  unfold Num.truediv at 2.
  unfold Num.float_of_int, F64.of_Z, binary_normalize.
  set (p := Z.to_pos (Z.abs (c1 - c0))).
  assert (Hp : Z.pos p = Z.abs (c1 - c0)) by (subst p; lia).
  rewrite <- Hp in Hbig. rewrite <- Hp.
  pose proof (digits2_le p 512 ltac:(lia) Hbig) as Hdp. clear Hbig.
  destruct (binary_round_near (c1 - c0 <? 0) p ltac:(lia))
    as (mA & eA & EA & HdA & HeA & HnA).
  assert (EA' : match c1 - c0 with
                | 0 => S754_zero false
                | Z.pos m => binary_round F64.prec F64.emax false m 0
                | Z.neg m => binary_round F64.prec F64.emax true m 0
                end = S754_finite (c1 - c0 <? 0) mA eA).
  { subst p. destruct (c1 - c0) as [|a|a]; [lia|exact EA|exact EA]. }
  rewrite EA'. clear EA'. clearbody p.
  cbn [F64.is_infinity mbind result_bind Py.bind].
  unfold Num.float_truediv. cbn [F64.is_zero mbind result_bind Py.bind].
  (* the bytes per second *)
  destruct (div_near (c1 - c0 <? 0) false mA mT eA eT)
    as (mP & eP & EP & HdP & HeP & HnP); [lia|].
  unfold F64.div. rewrite EP.
  (* the megabytes per second *)
  unfold Num.truediv, Num.float_of_int.
  change (F64.of_Z (1024 * 1024))
    with (S754_finite false 4503599627370496 (-32)).
  cbn [F64.is_infinity mbind result_bind Py.bind].
  change (1024 * 1024 =? 0) with false. cbn iota.
  destruct (div_near (xorb (c1 - c0 <? 0) false) false mP 4503599627370496
              eP (-32))
    as (mR & eR & ER & HdR & HeR & HnR).
  { change (Z.pos (digits2_pos 4503599627370496)) with 53. lia. }
  unfold F64.div. rewrite ER. rewrite !xorb_false_r.
  exists mR, eR. split; [reflexivity|].
  assert (Hg0 : (0 <= g)%Q) by discriminate.
  assert (Hg1 : (0 <= 1)%Q) by discriminate.
  assert (HA : (0 < inject_Z (Z.pos p))%Q)
    by (change 0%Q with (inject_Z 0); rewrite <- Zlt_Qlt; lia).
  assert (HT : (0 < inject_Z (t1 - t0) / inject_Z 1000000)%Q).
  { apply Qlt_shift_div_l; [reflexivity|]. rewrite Qmult_0_l.
    change 0%Q with (inject_Z 0). rewrite <- Zlt_Qlt. lia. }
  assert (Hps : near (g * g * g)
                  (inject_Z (Z.pos p) / (inject_Z (t1 - t0) / inject_Z 1000000))
                  (value mP eP)).
  { apply (near_trans (g * g) g _ (value mA eA / value mT eT));
      [apply Qmult_le_0_compat; exact Hg0 | exact Hg0 | | exact HnP].
    apply near_div; try assumption; apply value_pos. }
  assert (Hg3 : (0 <= g * g * g)%Q) by (vm_compute; discriminate).
  assert (Hg31 : (0 <= g * g * g * 1)%Q) by (vm_compute; discriminate).
  apply (near_trans (g * g * g * 1) g _
           (value mP eP / value 4503599627370496 (-32)) _ Hg31 Hg0);
    [|exact HnR].
  apply near_div; [exact Hg3 | exact Hg1 | | reflexivity | apply value_pos
                  | apply value_pos | exact Hps | ].
  - apply Qlt_shift_div_l; [exact HT|]. rewrite Qmult_0_l. exact HA.
  - apply near_exact. vm_compute. reflexivity.
Qed.

(** Two equal readings: the rate is zero. *)
Lemma network_rate_same (c t0 t1 : Z) :
  t0 < t1 → t1 - t0 < 2 ^ 512 →
  network_rate c c t0 t1 = Ok (S754_zero false).
Proof.
  intros Htime Hlong. unfold network_rate.
  destruct (total_seconds_near t0 t1 Htime Hlong) as (mT & eT & ET & _).
  rewrite ET, Z.sub_diag. reflexivity.
Qed.

(** The rate of the formula and the rate of the specification. *)
Lemma network_rate_value (c0 c1 t0 t1 : Z) :
  t0 < t1 → t1 - t0 < 2 ^ 512 → Z.abs (c1 - c0) < 2 ^ 512 →
  ∃ (rate : F64.float) (q : Q),
    network_rate c0 c1 t0 t1 = Ok rate
    ∧ to_Q rate = Some q
    ∧ (Qabs (q - exact_rate c0 c1 t0 t1)
       <= Qabs (exact_rate c0 c1 t0 t1) * (1 # 562949953421312))%Q
    ∧ (c1 < c0 → (q < 0)%Q).
Proof.
  intros Htime Hlong Hbig.
  destruct (Z.eq_dec c1 c0) as [->|Hdiff].
  - exists (S754_zero false), (0 # 1)%Q.
    split; [apply network_rate_same; assumption|]. split; [reflexivity|].
    split; [|lia].
    assert (E : (exact_rate c0 c0 t0 t1 == 0)%Q).
    { unfold exact_rate. rewrite Z.sub_diag. unfold Qdiv.
      rewrite !Qmult_0_l. reflexivity. }
    rewrite E. discriminate.
  - destruct (network_rate_near c0 c1 t0 t1 Htime Hlong Hbig Hdiff)
      as (m & e & Erate & Hnear).
    set (E := (inject_Z (Z.abs (c1 - c0))
               / (inject_Z (t1 - t0) / inject_Z 1000000)
               / inject_Z 1048576)%Q) in *.
    assert (HT : (0 < inject_Z (t1 - t0) / inject_Z 1000000)%Q).
    { apply Qlt_shift_div_l; [reflexivity|]. rewrite Qmult_0_l.
      change 0%Q with (inject_Z 0). rewrite <- Zlt_Qlt. lia. }
    assert (HE : (0 < E)%Q).
    { unfold E. apply Qlt_shift_div_l; [reflexivity|]. rewrite Qmult_0_l.
      apply Qlt_shift_div_l; [exact HT|]. rewrite Qmult_0_l.
      change 0%Q with (inject_Z 0). rewrite <- Zlt_Qlt. lia. }
    pose proof (value_pos m e) as Hv.
    pose proof (near_four E (value m e) (Qlt_le_weak _ _ HE)
                  (Qlt_le_weak _ _ Hv) Hnear) as Hbound.
    assert (HT0 : ¬ (inject_Z (t1 - t0) == 0)%Q).
    { change 0%Q with (inject_Z 0). rewrite inject_Z_injective. lia. }
    destruct (Z.ltb_spec (c1 - c0) 0) as [Hneg|Hpos].
    + exists (S754_finite true m e), (inject_Z (Z.neg m) * pow2 e)%Q.
      split; [exact Erate|]. split; [reflexivity|].
      assert (Hq : (inject_Z (Z.neg m) * pow2 e == - value m e)%Q).
      { unfold value. change (Z.neg m) with (- Z.pos m).
        rewrite inject_Z_opp. ring. }
      rewrite Hq.
      assert (Eq : (exact_rate c0 c1 t0 t1 == - E)%Q).
      { unfold exact_rate, E.
        replace (Z.abs (c1 - c0)) with (- (c1 - c0)) by lia.
        rewrite inject_Z_opp. field. exact HT0. }
      rewrite Eq. split.
      * assert (Ev : (- value m e - - E == - (value m e - E))%Q) by ring.
        rewrite Ev, !Qabs_opp, (Qabs_pos E) by (apply Qlt_le_weak, HE).
        exact Hbound.
      * intros _. lra.
    + exists (S754_finite false m e), (value m e).
      split; [exact Erate|]. split; [reflexivity|].
      assert (Eq : (exact_rate c0 c1 t0 t1 == E)%Q).
      { unfold exact_rate, E.
        replace (Z.abs (c1 - c0)) with (c1 - c0) by lia. reflexivity. }
      rewrite Eq. split; [|lia].
      rewrite (Qabs_pos E) by (apply Qlt_le_weak, HE). exact Hbound.
Qed.




End NetworkRate.

(** ** Python's [sorted(items, key=key, reverse=True)]

    The sort is stable: items with equal keys keep the order they came in,
    also under [reverse=True]. *)

Module Sorted.

Section Descending.

Context {A K : Type}.
Variable leb : K → K → bool.
Variable key : A → K.

(** Insert [x], which came before every item of the sorted list [l]: it
    goes before the first item whose key is not above its own. *)
Fixpoint insert_desc (x : A) (l : list A) : list A :=
  match l with
  | [] => [x]
  | y :: rest =>
      if leb (key y) (key x) then x :: y :: rest
      else y :: insert_desc x rest
  end.

Definition sorted_desc (l : list A) : list A := foldr insert_desc [] l.

End Descending.

End Sorted.

(** ** Runs that send requests

    A view of web/app.py reads files and may query the native agent. A run
    of a view records the requests it sent, in the order it sent them,
    beside what it returned or raised. *)

Module Trace.

(** A request: the URL and the timeout in seconds. *)
Definition request : Type := string * Z.

Record run (A : Type) : Type := Run {
  sent : list request;
  outcome : Py.result A
}.

Arguments Run {A} _ _.
Arguments sent {A} _.
Arguments outcome {A} _.

Definition ret {A : Type} (a : A) : run A := Run [] (Ok a).

Definition bind {A B : Type} (k : A → run B) (m : run A) : run B :=
  match outcome m with
  | Ok a => Run (sent m ++ sent (k a)) (outcome (k a))
  | Raise e => Run (sent m) (Raise e)
  end.

(** A computation that sends nothing. *)
Definition lift {A : Type} (r : Py.result A) : run A := Run [] r.

(** [try: ... except: pass]: the value is kept only when nothing was
    raised; what was sent was sent. *)
Definition try_except {A : Type} (m : run A) (default : A) : run A :=
  Run (sent m) (Ok (Py.try_except (outcome m) default)).

(** [try: ... except Exception as e: return handler(e)] *)
Definition try_return {A : Type} (m : run A) (handler : Py.exc → A) : run A :=
  Run (sent m)
      (Ok match outcome m with
          | Ok a => a
          | Raise e => handler e
          end).

End Trace.

#[global] Instance run_ret : MRet Trace.run := @Trace.ret.
#[global] Instance run_bind : MBind Trace.run := @Trace.bind.

(** ** web/app.py: the sources of snapshots and the endpoints *)

Module App.

Import Value.
Import Trace.

(** A JSON file as an endpoint finds it. *)
Inductive file_state : Type :=
| Missing                    (* [path.exists()] is false *)
| Forbidden                  (* [path.exists()] raises: a directory above the
                                path may not be searched, the PermissionError
                                that [pathlib] does not swallow *)
| Unreadable                 (* the file is there; [open] or [json.load] raises *)
| Holds (data : pyval).      (* the file is there and parses to [data] *)

(** What the native agent does with [GET /metrics]. The timeout of
    [requests.get] bounds each wait on the socket (for the connection, and
    for the next bytes of the answer), not the time the whole answer takes:
    [longest_wait_ms] is the longest of these waits. *)
Inductive agent_state : Type :=
| NoAnswer                   (* no connection, or no answer at all *)
| Answers (longest_wait_ms : Z) (status_code : Z) (body : option pyval).
                             (* [body] is [None] when it is not JSON *)

(** A file of the archive directory [json/]. *)
Record archive_file : Type := {
  name : string;
  st_mtime : Z;
  content : file_state
}.

(** The archive directory [json/] as an endpoint finds it. *)
Inductive directory_state : Type :=
| NoDirectory                (* [JSON_DIR.exists()] is false *)
| ForbiddenDirectory         (* [JSON_DIR.exists()] raises *)
| Unlistable                 (* the directory is there; [glob] or [stat] raises *)
| Directory (files : list archive_file).
                             (* the files of [JSON_DIR.glob('*.json')] *)

(** What the endpoints read. *)
Record world : Type := {
  HOST_LATEST_JSON : file_state;
  GO_LATEST_JSON : file_state;
  JSON_DIR : directory_state;
  ALERTS_FILE : file_state;
  NATIVE_AGENT_URL : string;
  native_agent : agent_state;
  now : string                            (* [datetime.now().isoformat()] *)
}.

(** A Flask response: [jsonify(body), status]. *)
Record response : Type := {
  status : Z;
  body : list (string * pyval)
}.

Definition jsonify (items : list (string * pyval)) : response :=
  {| status := 200; body := items |}.

(** [path.exists()] *)
Definition exists_ (f : file_state) : Py.result bool :=
  match f with
  | Missing => Ok false
  | Forbidden => Raise OSError
  | Unreadable | Holds _ => Ok true
  end.

(** [with open(path) as f: json.load(f)] *)
Definition load_json (f : file_state) : Py.result pyval :=
  match f with
  | Holds data => Ok data
  | Unreadable => Raise ValueError
  | Missing | Forbidden => Raise OSError
  end.

(** [JSON_DIR.exists()] *)
Definition dir_exists (d : directory_state) : Py.result bool :=
  match d with
  | NoDirectory => Ok false
  | ForbiddenDirectory => Raise OSError
  | Unlistable | Directory _ => Ok true
  end.

(** [sorted(JSON_DIR.glob('*.json'), key=lambda p: p.stat().st_mtime, reverse=True)] *)
Definition json_files (d : directory_state) : Py.result (list archive_file) :=
  match d with
  | Directory files => Ok (Sorted.sorted_desc Z.leb st_mtime files)
  | _ => Raise OSError
  end.

(** [f"{NATIVE_AGENT_URL}/metrics"] *)
Definition metrics_url (w : world) : string :=
  String.append (NATIVE_AGENT_URL w) "/metrics".

(** [requests.get(url, timeout=timeout)]: the status code and the body. The
    request is sent whatever comes of it; an answer is had when no wait on
    the socket reaches the timeout. *)
Definition requests_get (agent : agent_state) (url : string) (timeout_s : Z)
  : run (Z * option pyval) :=
  Run [(url, timeout_s)]
      match agent with
      | NoAnswer => Raise RequestException
      | Answers longest_wait_ms status_code body =>
          if longest_wait_ms <? 1000 * timeout_s then Ok (status_code, body)
          else Raise RequestException
      end.

(** [response.json()] *)
Definition response_json (body : option pyval) : Py.result pyval :=
  match body with
  | Some data => Ok data
  | None => Raise ValueError
  end.

(** [if path.exists(): try: data = json.load(...) except: pass], from
    [data = None]; the test of existence stands outside the [try]. *)
Definition read_snapshot (f : file_state) : Py.result pyval :=
  there ← exists_ f;
  if (there : bool) then Ok (Py.try_except (load_json f) PNone) else Ok PNone.

(** [if not native_data: try: ... requests.get(..., timeout=1) ... except: pass] *)
Definition native_from_api (w : world) (native_data : pyval) : run pyval :=
  if negb (truthy native_data) then
    try_except
      ('(status_code, body) ← requests_get (native_agent w) (metrics_url w) 1;
       if status_code =? 200 then lift (response_json body)
       else mret native_data)
      native_data
  else mret native_data.

Definition get_dual_metrics (w : world) : run response :=
  legacy_data ← lift (read_snapshot (HOST_LATEST_JSON w));
  native_data ← lift (read_snapshot (GO_LATEST_JSON w));
  native_data ← native_from_api w native_data;
  mret (jsonify [ ("success", PBool true);
                  ("timestamp", PStr (now w));
                  ("legacy", legacy_data);
                  ("native", native_data) ]).

Definition unavailable (error : string) : response :=
  {| status := 503;
     body := [("success", PBool false); ("error", PStr error)] |}.

Definition get_native_metrics (w : world) : run response :=
  live ← try_except
           ('(status_code, body) ← requests_get (native_agent w) (metrics_url w) 2;
            if status_code =? 200 then
              data ← lift (response_json body);
              mret (Some (jsonify [ ("success", PBool true);
                                    ("source", PStr "native_agent_api");
                                    ("timestamp", PStr (now w));
                                    ("data", data) ]))
            else mret None)
           None;
  match live with
  | Some r => mret r
  | None =>
      there ← lift (exists_ (GO_LATEST_JSON w));
      let from_file :=
        if (there : bool) then
          Py.try_except
            (data ← load_json (GO_LATEST_JSON w);
             Ok (Some (jsonify [ ("success", PBool true);
                                 ("source", PStr "native_agent_file");
                                 ("timestamp", PStr (now w));
                                 ("data", data) ])))
            None
        else None in
      match from_file with
      | Some r => mret r
      | None => mret (unavailable "Native agent unavailable (API and File failed)")
      end
  end.

Definition get_metrics (w : world) : Py.result response :=
  there ← exists_ (HOST_LATEST_JSON w);
  let from_host :=
    if (there : bool) then
      Py.try_except
        (data ← load_json (HOST_LATEST_JSON w);
         Ok (Some (jsonify [ ("success", PBool true);
                             ("source", PStr "host_direct");
                             ("timestamp", PStr (now w));
                             ("data", data) ])))
        None
    else None in
  match from_host with
  | Some r => Ok r
  | None =>
      let from_archive :=
        Py.try_except
          (there ← dir_exists (JSON_DIR w);
           if (there : bool) then
             files ← json_files (JSON_DIR w);
             match files with
             | latest_log :: _ =>
                 data ← load_json (content latest_log);
                 Ok (Some (jsonify [ ("success", PBool true);
                                     ("source", PStr "archive_log");
                                     ("timestamp", PStr (now w));
                                     ("file", PStr (name latest_log));
                                     ("data", data) ]))
             | [] => Ok None
             end
           else Ok None)
          None in
      match from_archive with
      | Some r => Ok r
      | None =>
          Ok (unavailable "No metrics available. Ensure Host Monitor is running.")
      end
  end.

(** The fallback of [generate_report] for the legacy snapshot, the newest
    file of the archive: [if not legacy_data and JSON_DIR.exists(): try: ...
    except: pass]. The test of existence stands outside the [try]. *)
Definition legacy_from_archive (w : world) (legacy_data : pyval)
  : Py.result pyval :=
  if negb (truthy legacy_data) then
    there ← dir_exists (JSON_DIR w);
    if (there : bool) then
      Ok (Py.try_except
            (files ← json_files (JSON_DIR w);
             match files with
             | newest :: _ => load_json (content newest)
             | [] => Ok legacy_data
             end)
            legacy_data)
    else Ok legacy_data
  else Ok legacy_data.

Section Report.

(** [report_gen.generate_report(legacy, native, alerts)]: the rendering of
    the templates and the writing of the two report files, which returns
    their paths or raises. *)
Variable render_report : pyval → pyval → pyval → Py.result (string * string).

(** [str(e)] *)
Variable message : Py.exc → string.

Definition generate_report (w : world) : run response :=
  try_return
    (legacy_data ← lift (read_snapshot (HOST_LATEST_JSON w));
     legacy_data ← lift (legacy_from_archive w legacy_data);
     native_data ← lift (read_snapshot (GO_LATEST_JSON w));
     native_data ← native_from_api w native_data;
     if negb (truthy legacy_data) && negb (truthy native_data) then
       mret (jsonify [ ("success", PBool false);
                       ("error", PStr "No metrics available to generate report") ])
     else
       alerts_data ← lift (there ← exists_ (ALERTS_FILE w);
                           if (there : bool) then load_json (ALERTS_FILE w)
                           else Ok (PList []));
       '(html_path, md_path) ←
         lift (render_report legacy_data native_data alerts_data);
       mret (jsonify [ ("success", PBool true);
                       ("files", PDict [ ("html", PStr html_path);
                                         ("markdown", PStr md_path) ]) ]))
    (λ e, {| status := 500;
             body := [("success", PBool false); ("error", PStr (message e))] |}).

End Report.

(** *** What the sources give *)

(** The item of a response body under [key]. *)
Definition slot (r : response) (key : string) : option pyval :=
  lookup_item (body r) key.

(** The snapshot a file gives: none when it is missing or does not parse. *)
Definition file_snapshot (f : file_state) : option pyval :=
  match f with
  | Holds data => Some data
  | _ => None
  end.

(** The snapshot a live query gives within [timeout_s] seconds: none
    unless the agent answers in time with status 200 and a JSON body. *)
Definition live_snapshot (agent : agent_state) (timeout_s : Z) : option pyval :=
  match agent with
  | Answers longest_wait_ms status_code body =>
      if (longest_wait_ms <? 1000 * timeout_s) && (status_code =? 200) then body
      else None
  | NoAnswer => None
  end.

(** The snapshot the archive gives: the newest file, when it parses. *)
Definition archive_snapshot (w : world) : option pyval :=
  match JSON_DIR w with
  | Directory files =>
      match Sorted.sorted_desc Z.leb st_mtime files with
      | newest :: _ => file_snapshot (content newest)
      | [] => None
      end
  | _ => None
  end.

(** A source gives nothing: no snapshot, or one that is empty ([not data]). *)
Definition nothing (snapshot : option pyval) : bool :=
  negb (truthy (default PNone snapshot)).

Lemma read_snapshot_answers (f : file_state) :
  f ≠ Forbidden → read_snapshot f = Ok (default PNone (file_snapshot f)).
Proof. destruct f; try reflexivity. contradiction. Qed.

Lemma native_from_api_truthy (w : world) (data : pyval) :
  truthy data = true → native_from_api w data = Run [] (Ok data).
Proof. intros H. unfold native_from_api. rewrite H. reflexivity. Qed.

Lemma native_from_api_falsy (w : world) (data : pyval) :
  truthy data = false →
  native_from_api w data
  = Run [(metrics_url w, 1)]
        (Ok (default data (live_snapshot (native_agent w) 1))).
Proof.
  intros H. unfold native_from_api, live_snapshot, requests_get. rewrite H.
  cbn [negb].
  destruct (native_agent w) as [|longest_wait_ms status_code body];
    [reflexivity|].
  destruct (longest_wait_ms <? 1000 * 1); [|reflexivity].
  unfold try_except, mbind, run_bind, bind. cbn [outcome sent app andb].
  destruct (status_code =? 200); [|reflexivity].
  destruct body; reflexivity.
Qed.

(** The merged view when both tests of existence answer. *)
Lemma get_dual_metrics_answers (w : world) :
  HOST_LATEST_JSON w ≠ Forbidden → GO_LATEST_JSON w ≠ Forbidden →
  get_dual_metrics w
  = let file := default PNone (file_snapshot (GO_LATEST_JSON w)) in
    Run (sent (native_from_api w file))
        (Ok (jsonify
               [ ("success", PBool true);
                 ("timestamp", PStr (now w));
                 ("legacy", default PNone (file_snapshot (HOST_LATEST_JSON w)));
                 ("native",
                  Py.try_except (outcome (native_from_api w file)) PNone) ])).
Proof.
  intros Hhost Hgo. unfold get_dual_metrics.
  rewrite (read_snapshot_answers _ Hhost), (read_snapshot_answers _ Hgo).
  cbn zeta. unfold mbind, run_bind, bind, lift. cbn [outcome sent app].
  destruct (truthy (default PNone (file_snapshot (GO_LATEST_JSON w)))) eqn:E.
  - rewrite (native_from_api_truthy _ _ E). reflexivity.
  - rewrite (native_from_api_falsy _ _ E). reflexivity.
Qed.

Lemma get_dual_metrics_forbidden (w : world) :
  HOST_LATEST_JSON w = Forbidden ∨ GO_LATEST_JSON w = Forbidden →
  get_dual_metrics w = Run [] (Raise OSError).
Proof.
  unfold get_dual_metrics. intros [H|H]; rewrite H.
  - reflexivity.
  - destruct (HOST_LATEST_JSON w); reflexivity.
Qed.

(** The live query of [get_native_metrics], which it makes first. *)
Lemma get_native_metrics_live (w : world) :
  get_native_metrics w
  = match live_snapshot (native_agent w) 2 with
    | Some data =>
        Run [(metrics_url w, 2)]
            (Ok (jsonify [ ("success", PBool true);
                           ("source", PStr "native_agent_api");
                           ("timestamp", PStr (now w));
                           ("data", data) ]))
    | None =>
        Run [(metrics_url w, 2)]
            match GO_LATEST_JSON w with
            | Forbidden => Raise OSError
            | Holds data =>
                Ok (jsonify [ ("success", PBool true);
                              ("source", PStr "native_agent_file");
                              ("timestamp", PStr (now w));
                              ("data", data) ])
            | Missing | Unreadable =>
                Ok (unavailable "Native agent unavailable (API and File failed)")
            end
    end.
Proof.
  unfold get_native_metrics, live_snapshot, requests_get.
  destruct (native_agent w) as [|longest_wait_ms status_code body].
  - destruct (GO_LATEST_JSON w); reflexivity.
  - destruct (longest_wait_ms <? 1000 * 2); cbn [andb].
    + unfold try_except, mbind, run_bind, bind. cbn [outcome sent app].
      destruct (status_code =? 200).
      * destruct body as [data|]; [reflexivity|].
        destruct (GO_LATEST_JSON w); reflexivity.
      * destruct (GO_LATEST_JSON w); reflexivity.
    + destruct (GO_LATEST_JSON w); reflexivity.
Qed.

(** Worlds of a host whose native agent has the address of the
    configuration's default. *)
Definition agent_url : string := "http://host.docker.internal:8889".

(** A world in which the native agent has written its file and also
    answers live, at once, with a newer snapshot. *)
Definition file_and_live : world :=
  {| HOST_LATEST_JSON := Missing;
     GO_LATEST_JSON := Holds (PDict [("cpu", PDict [("usage_percent", PInt 10)])]);
     JSON_DIR := NoDirectory;
     ALERTS_FILE := Missing;
     NATIVE_AGENT_URL := agent_url;
     native_agent :=
       Answers 5 200 (Some (PDict [("cpu", PDict [("usage_percent", PInt 20)])]));
     now := "2025-12-17T10:00:00" |}.

(** A world with no snapshot at all: no file, no archive, no agent. *)
Definition nothing_there : world :=
  {| HOST_LATEST_JSON := Missing;
     GO_LATEST_JSON := Missing;
     JSON_DIR := NoDirectory;
     ALERTS_FILE := Missing;
     NATIVE_AGENT_URL := agent_url;
     native_agent := NoAnswer;
     now := "2025-12-17T10:00:00" |}.

(** A world in which the directory of the native file may not be searched,
    while the agent answers. *)
Definition native_file_forbidden : world :=
  {| HOST_LATEST_JSON := Holds (PDict [("cpu", PDict [("usage_percent", PInt 10)])]);
     GO_LATEST_JSON := Forbidden;
     JSON_DIR := NoDirectory;
     ALERTS_FILE := Missing;
     NATIVE_AGENT_URL := agent_url;
     native_agent :=
       Answers 5 200 (Some (PDict [("cpu", PDict [("usage_percent", PInt 20)])]));
     now := "2025-12-17T10:00:00" |}.

(** C3, as the claim states it, fails: with the native file written and
    the agent answering at once with another snapshot, the merged view
    sends no query and holds the snapshot of the file, not the live one. *)
Lemma dual_metrics_prefers_file :
  live_snapshot (native_agent file_and_live) 1
  = Some (PDict [("cpu", PDict [("usage_percent", PInt 20)])])
  ∧ get_dual_metrics file_and_live
    = Run []
          (Ok (jsonify
                 [ ("success", PBool true);
                   ("timestamp", PStr "2025-12-17T10:00:00");
                   ("legacy", PNone);
                   ("native",
                    PDict [("cpu", PDict [("usage_percent", PInt 10)])]) ])).
Proof. split; reflexivity. Qed.

(** C3, amended. In the merged view of [get_dual_metrics], when the tests
    of existence of the two files answer, nothing is raised and the answer
    is a success with status 200 whose two slots are filled independently.
    The legacy slot is the snapshot of the file [latest.json], or null when
    the file is missing or does not parse; no live query is made for it.
    The native slot is the snapshot of the file [go_latest.json] when it
    holds a non-empty snapshot, whatever the agent would answer, and no
    query is sent then; a live query (one second) is sent exactly when the
    file gives nothing, and its snapshot fills the slot; when that fails
    too the slot is what the file gave, null when it gave nothing. When a
    test of existence raises, the view raises with no query sent and no
    slot is answered. The single-source endpoint [get_native_metrics]
    sends its query (two seconds) first, on every call, and tests and reads
    the file only when the live query gives no snapshot. *)
Theorem dual_metrics_sources :
  (∀ w : world,
      HOST_LATEST_JSON w ≠ Forbidden → GO_LATEST_JSON w ≠ Forbidden →
      ∃ r, outcome (get_dual_metrics w) = Ok r
           ∧ status r = 200
           ∧ slot r "success" = Some (PBool true)
           ∧ slot r "legacy"
             = Some (default PNone (file_snapshot (HOST_LATEST_JSON w)))
           ∧ (∀ data,
                file_snapshot (GO_LATEST_JSON w) = Some data →
                truthy data = true →
                slot r "native" = Some data
                ∧ sent (get_dual_metrics w) = [])
           ∧ (nothing (file_snapshot (GO_LATEST_JSON w)) = true →
              sent (get_dual_metrics w) = [(metrics_url w, 1)]
              ∧ slot r "native"
                = Some (default (default PNone (file_snapshot (GO_LATEST_JSON w)))
                          (live_snapshot (native_agent w) 1))))
  ∧ (∀ w : world,
      HOST_LATEST_JSON w = Forbidden ∨ GO_LATEST_JSON w = Forbidden →
      get_dual_metrics w = Run [] (Raise OSError))
  ∧ (∀ w : world, sent (get_native_metrics w) = [(metrics_url w, 2)])
  ∧ (∀ (w : world) (data : pyval),
      live_snapshot (native_agent w) 2 = Some data →
      ∃ r, outcome (get_native_metrics w) = Ok r
           ∧ status r = 200
           ∧ slot r "source" = Some (PStr "native_agent_api")
           ∧ slot r "data" = Some data)
  ∧ (∀ (w : world) (data : pyval),
      live_snapshot (native_agent w) 2 = None →
      file_snapshot (GO_LATEST_JSON w) = Some data →
      ∃ r, outcome (get_native_metrics w) = Ok r
           ∧ status r = 200
           ∧ slot r "source" = Some (PStr "native_agent_file")
           ∧ slot r "data" = Some data)
  ∧ (∀ w : world,
      live_snapshot (native_agent w) 2 = None →
      GO_LATEST_JSON w = Forbidden →
      outcome (get_native_metrics w) = Raise OSError).
Proof.
  repeat match goal with |- _ ∧ _ => split end.
  - intros w Hhost Hgo. rewrite (get_dual_metrics_answers w Hhost Hgo).
    cbn zeta. eexists. split; [reflexivity|].
    repeat match goal with |- _ ∧ _ => split end; try reflexivity.
    + intros data Hfile Htruthy. rewrite Hfile. cbn [default].
      rewrite (native_from_api_truthy _ _ Htruthy). split; reflexivity.
    + unfold nothing. intros Hnothing. apply negb_true_iff in Hnothing.
      rewrite (native_from_api_falsy _ _ Hnothing). split; reflexivity.
  - exact get_dual_metrics_forbidden.
  - intros w. rewrite get_native_metrics_live.
    destruct (live_snapshot (native_agent w) 2); reflexivity.
  - intros w data Hlive. rewrite get_native_metrics_live, Hlive.
    eexists. split; [reflexivity|]. repeat split; reflexivity.
  - intros w data Hlive Hfile. rewrite get_native_metrics_live, Hlive.
    destruct (GO_LATEST_JSON w); try discriminate. injection Hfile as ->.
    eexists. split; [reflexivity|]. repeat split; reflexivity.
  - intros w Hlive Hgo. rewrite get_native_metrics_live, Hlive, Hgo.
    reflexivity.
Qed.

Lemma dual_metrics_sources_witness :
  (HOST_LATEST_JSON file_and_live ≠ Forbidden
   ∧ GO_LATEST_JSON file_and_live ≠ Forbidden)
  ∧ (∃ r, outcome (get_dual_metrics file_and_live) = Ok r
          ∧ slot r "native"
            = Some (PDict [("cpu", PDict [("usage_percent", PInt 10)])]))
  ∧ sent (get_dual_metrics file_and_live) = []
  ∧ get_dual_metrics native_file_forbidden = Run [] (Raise OSError)
  ∧ (∃ r, outcome (get_native_metrics native_file_forbidden) = Ok r
          ∧ slot r "data"
            = Some (PDict [("cpu", PDict [("usage_percent", PInt 20)])])).
Proof.
  destruct dual_metrics_sources as (Hdual & Hraise & _ & Hlive & _).
  assert (Hhost : HOST_LATEST_JSON file_and_live ≠ Forbidden) by discriminate.
  assert (Hgo : GO_LATEST_JSON file_and_live ≠ Forbidden) by discriminate.
  split; [split; assumption|].
  destruct (Hdual file_and_live Hhost Hgo)
    as (r & Hr & _ & _ & _ & Hfile & _).
  destruct (Hfile _ eq_refl eq_refl) as [Hslot Hsent].
  split; [exists r; split; assumption|]. split; [exact Hsent|]. split.
  - apply Hraise. right. reflexivity.
  - destruct (Hlive native_file_forbidden _ eq_refl) as (r' & Hr' & _ & _ & Hdata).
    exists r'. split; assumption.
Defined.

(** *** No source at all *)

Lemma get_metrics_unavailable (w : world) :
  HOST_LATEST_JSON w ≠ Forbidden →
  file_snapshot (HOST_LATEST_JSON w) = None → archive_snapshot w = None →
  get_metrics w
  = Ok (unavailable "No metrics available. Ensure Host Monitor is running.").
Proof.
  unfold get_metrics, archive_snapshot. intros Hanswers Hhost Harchive.
  destruct (HOST_LATEST_JSON w); try discriminate; try contradiction;
    cbn [exists_ load_json mbind result_bind Py.bind Py.try_except];
    (destruct (JSON_DIR w) as [| | |files]; try reflexivity);
    cbn [dir_exists json_files mbind result_bind Py.bind];
    (destruct (Sorted.sorted_desc Z.leb st_mtime files) as [|newest rest];
     [reflexivity|]);
    destruct (content newest); try discriminate; reflexivity.
Qed.

(** The legacy snapshot of [generate_report] when the file gives nothing:
    what the archive gives, else what the file gave. *)
Lemma legacy_from_archive_falsy (w : world) (data : pyval) :
  truthy data = false → JSON_DIR w ≠ ForbiddenDirectory →
  legacy_from_archive w data = Ok (default data (archive_snapshot w)).
Proof.
  intros H Hdir. unfold legacy_from_archive, archive_snapshot. rewrite H.
  cbn [negb].
  destruct (JSON_DIR w) as [| | |files]; try reflexivity; [contradiction|].
  cbn [dir_exists json_files mbind result_bind Py.bind].
  destruct (Sorted.sorted_desc Z.leb st_mtime files) as [|newest rest];
    [reflexivity|].
  destruct (content newest); reflexivity.
Qed.

Section ReportFacts.

Variable render_report : pyval → pyval → pyval → Py.result (string * string).
Variable message : Py.exc → string.

(** [generate_report] returns a response, whatever is raised inside. *)
Lemma generate_report_returns (w : world) :
  ∃ r, outcome (generate_report render_report message w) = Ok r.
Proof. eexists. reflexivity. Qed.

(** Every source gives nothing: the answer is the failure for no metrics. *)
Lemma generate_report_nothing (w : world) :
  HOST_LATEST_JSON w ≠ Forbidden → GO_LATEST_JSON w ≠ Forbidden →
  JSON_DIR w ≠ ForbiddenDirectory →
  nothing (file_snapshot (HOST_LATEST_JSON w)) = true →
  nothing (archive_snapshot w) = true →
  nothing (file_snapshot (GO_LATEST_JSON w)) = true →
  nothing (live_snapshot (native_agent w) 1) = true →
  generate_report render_report message w
  = Run [(metrics_url w, 1)]
        (Ok (jsonify [ ("success", PBool false);
                       ("error", PStr "No metrics available to generate report") ])).
Proof.
  unfold nothing. rewrite !negb_true_iff.
  intros Hhost Hgo Hdir Hlegacy Harchive Hnative Hlive.
  unfold generate_report.
  rewrite (read_snapshot_answers _ Hhost), (read_snapshot_answers _ Hgo).
  unfold try_return, mbind, run_bind, bind, lift. cbn [outcome sent app].
  rewrite (legacy_from_archive_falsy _ _ Hlegacy Hdir).
  rewrite (native_from_api_falsy _ _ Hnative). cbn [outcome sent app].
  assert (Hl : truthy (default (default PNone (file_snapshot (HOST_LATEST_JSON w)))
                         (archive_snapshot w)) = false).
  { destruct (archive_snapshot w); [exact Harchive | exact Hlegacy]. }
  assert (Hn : truthy (default (default PNone (file_snapshot (GO_LATEST_JSON w)))
                         (live_snapshot (native_agent w) 1)) = false).
  { destruct (live_snapshot (native_agent w) 1); [exact Hlive | exact Hnative]. }
  rewrite Hl, Hn. reflexivity.
Qed.

(** A test of existence that raises: the answer has status 500. *)
Lemma generate_report_forbidden (w : world) :
  HOST_LATEST_JSON w = Forbidden
  ∨ (nothing (file_snapshot (HOST_LATEST_JSON w)) = true
     ∧ JSON_DIR w = ForbiddenDirectory)
  ∨ GO_LATEST_JSON w = Forbidden →
  generate_report render_report message w
  = Run []
        (Ok {| status := 500;
               body := [ ("success", PBool false);
                         ("error", PStr (message OSError)) ] |}).
Proof.
  unfold generate_report, nothing.
  intros [H|[[Hlegacy H]|H]].
  - rewrite H. reflexivity.
  - apply negb_true_iff in Hlegacy.
    destruct (HOST_LATEST_JSON w) as [| | |data] eqn:E;
      [ | reflexivity | | ];
      unfold try_return, mbind, run_bind, bind, lift;
      cbn [outcome sent app read_snapshot exists_ load_json mbind result_bind
           Py.bind Py.try_except];
      unfold legacy_from_archive; simpl in Hlegacy; rewrite ?Hlegacy, H;
      reflexivity.
  - rewrite H.
    destruct (read_snapshot (HOST_LATEST_JSON w)) as [legacy|e] eqn:E.
    + unfold try_return, mbind, run_bind, bind, lift. cbn [outcome sent app].
      destruct (legacy_from_archive w legacy) as [legacy'|e'] eqn:E'.
      * reflexivity.
      * assert (e' = OSError) as ->; [|reflexivity].
        unfold legacy_from_archive in E'.
        destruct (negb (truthy legacy)); [|discriminate].
        destruct (JSON_DIR w); cbv in E'; congruence.
    + assert (e = OSError) as ->; [|reflexivity].
      destruct (HOST_LATEST_JSON w); cbv in E; congruence.
Qed.

End ReportFacts.

(** A world whose legacy file holds an empty snapshot, and nothing else. *)
Definition empty_snapshot_only : world :=
  {| HOST_LATEST_JSON := Holds (PDict []);
     GO_LATEST_JSON := Missing;
     JSON_DIR := NoDirectory;
     ALERTS_FILE := Missing;
     NATIVE_AGENT_URL := agent_url;
     native_agent := NoAnswer;
     now := "2025-12-17T10:00:00" |}.

(** A world in which the directory of the legacy file may not be searched. *)
Definition legacy_file_forbidden : world :=
  {| HOST_LATEST_JSON := Forbidden;
     GO_LATEST_JSON := Missing;
     JSON_DIR := NoDirectory;
     ALERTS_FILE := Missing;
     NATIVE_AGENT_URL := agent_url;
     native_agent := NoAnswer;
     now := "2025-12-17T10:00:00" |}.

(** A rendering that writes two reports. *)
Definition render_two_files (legacy native alerts : pyval)
  : Py.result (string * string) :=
  Ok ("reports/html/report.html", "reports/markdown/report.md").

(** C5, as the claim states it, fails: with no legacy file, no archive, no
    native file and no agent, [get_dual_metrics] answers with status 200
    and [success: true], and no error. And the failure [generate_report]
    answers then, with status 200, is also its answer to a legacy file that
    holds an empty snapshot. *)
Lemma dual_metrics_nothing_is_success :
  (file_snapshot (HOST_LATEST_JSON nothing_there) = None
   ∧ archive_snapshot nothing_there = None
   ∧ file_snapshot (GO_LATEST_JSON nothing_there) = None
   ∧ live_snapshot (native_agent nothing_there) 2 = None)
  ∧ outcome (get_dual_metrics nothing_there)
    = Ok {| status := 200;
            body := [ ("success", PBool true);
                      ("timestamp", PStr "2025-12-17T10:00:00");
                      ("legacy", PNone);
                      ("native", PNone) ] |}
  ∧ file_snapshot (HOST_LATEST_JSON empty_snapshot_only) = Some (PDict [])
  ∧ outcome (generate_report render_two_files (λ _, "error") empty_snapshot_only)
    = outcome (generate_report render_two_files (λ _, "error") nothing_there)
  ∧ outcome (generate_report render_two_files (λ _, "error") nothing_there)
    = Ok {| status := 200;
            body := [ ("success", PBool false);
                      ("error", PStr "No metrics available to generate report") ] |}.
Proof. repeat split; reflexivity. Qed.

(** C5, amended. When no source gives a snapshot and the tests of
    existence of the files answer, [get_metrics] and [get_native_metrics]
    answer with status 503, [success: false] and an error, and
    [generate_report] answers [success: false] with the error for no
    metrics and status 200, which is its answer whenever every snapshot the
    sources give is empty. [get_dual_metrics] answers [success: true] with
    both slots null, an answer it gives in no world in which a file holds a
    snapshot that is not null: the legacy slot, or the native slot, then
    holds it. When a test of existence raises, [get_metrics] raises, and so
    does [get_native_metrics] after a live query that gave nothing, and
    [generate_report], which raises nothing, answers with status 500. *)
Theorem no_source_answers :
  (∀ w : world,
      HOST_LATEST_JSON w ≠ Forbidden →
      file_snapshot (HOST_LATEST_JSON w) = None → archive_snapshot w = None →
      get_metrics w
      = Ok {| status := 503;
              body := [ ("success", PBool false);
                        ("error",
                         PStr "No metrics available. Ensure Host Monitor is running.") ] |})
  ∧ (∀ w : world,
      HOST_LATEST_JSON w = Forbidden → get_metrics w = Raise OSError)
  ∧ (∀ w : world,
      live_snapshot (native_agent w) 2 = None →
      GO_LATEST_JSON w ≠ Forbidden →
      file_snapshot (GO_LATEST_JSON w) = None →
      outcome (get_native_metrics w)
      = Ok {| status := 503;
              body := [ ("success", PBool false);
                        ("error",
                         PStr "Native agent unavailable (API and File failed)") ] |})
  ∧ (∀ w : world,
      live_snapshot (native_agent w) 2 = None →
      GO_LATEST_JSON w = Forbidden →
      outcome (get_native_metrics w) = Raise OSError)
  ∧ (∀ (render_report : pyval → pyval → pyval → Py.result (string * string))
       (message : Py.exc → string) (w : world),
      HOST_LATEST_JSON w ≠ Forbidden → GO_LATEST_JSON w ≠ Forbidden →
      JSON_DIR w ≠ ForbiddenDirectory →
      nothing (file_snapshot (HOST_LATEST_JSON w)) = true →
      nothing (archive_snapshot w) = true →
      nothing (file_snapshot (GO_LATEST_JSON w)) = true →
      nothing (live_snapshot (native_agent w) 1) = true →
      outcome (generate_report render_report message w)
      = Ok {| status := 200;
              body := [ ("success", PBool false);
                        ("error",
                         PStr "No metrics available to generate report") ] |})
  ∧ (∀ (render_report : pyval → pyval → pyval → Py.result (string * string))
       (message : Py.exc → string) (w : world),
      (∃ r, outcome (generate_report render_report message w) = Ok r)
      ∧ (HOST_LATEST_JSON w = Forbidden
         ∨ (nothing (file_snapshot (HOST_LATEST_JSON w)) = true
            ∧ JSON_DIR w = ForbiddenDirectory)
         ∨ GO_LATEST_JSON w = Forbidden →
         outcome (generate_report render_report message w)
         = Ok {| status := 500;
                 body := [ ("success", PBool false);
                           ("error", PStr (message OSError)) ] |}))
  ∧ (∀ w : world,
      HOST_LATEST_JSON w ≠ Forbidden → GO_LATEST_JSON w ≠ Forbidden →
      file_snapshot (HOST_LATEST_JSON w) = None →
      file_snapshot (GO_LATEST_JSON w) = None →
      live_snapshot (native_agent w) 1 = None →
      outcome (get_dual_metrics w)
      = Ok {| status := 200;
              body := [ ("success", PBool true);
                        ("timestamp", PStr (now w));
                        ("legacy", PNone);
                        ("native", PNone) ] |})
  ∧ (∀ (w : world) (data : pyval),
      HOST_LATEST_JSON w ≠ Forbidden → GO_LATEST_JSON w ≠ Forbidden →
      data ≠ PNone →
      file_snapshot (HOST_LATEST_JSON w) = Some data
      ∨ (file_snapshot (GO_LATEST_JSON w) = Some data ∧ truthy data = true) →
      ∃ r, outcome (get_dual_metrics w) = Ok r
           ∧ (slot r "legacy" ≠ Some PNone ∨ slot r "native" ≠ Some PNone)).
Proof.
  repeat match goal with |- _ ∧ _ => split end.
  - intros w Hanswers Hhost Harchive.
    apply (get_metrics_unavailable w Hanswers Hhost Harchive).
  - intros w H. unfold get_metrics. rewrite H. reflexivity.
  - intros w Hlive Hanswers Hfile. rewrite get_native_metrics_live, Hlive.
    destruct (GO_LATEST_JSON w); try discriminate; try contradiction;
      reflexivity.
  - intros w Hlive Hgo. rewrite get_native_metrics_live, Hlive, Hgo.
    reflexivity.
  - intros render_report message w Hhost Hgo Hdir Hl Ha Hn Hv.
    rewrite (generate_report_nothing _ _ w Hhost Hgo Hdir Hl Ha Hn Hv).
    reflexivity.
  - intros render_report message w. split.
    + apply generate_report_returns.
    + intros H. rewrite (generate_report_forbidden _ _ w H). reflexivity.
  - intros w Hhost Hgo Hlegacy Hnative Hlive.
    rewrite (get_dual_metrics_answers w Hhost Hgo), Hlegacy, Hnative.
    cbn zeta. cbn [default].
    rewrite (native_from_api_falsy w PNone eq_refl), Hlive. reflexivity.
  - intros w data Hhost Hgo Hdata Hfile.
    rewrite (get_dual_metrics_answers w Hhost Hgo). cbn zeta.
    eexists. split; [reflexivity|].
    destruct Hfile as [Hfile|[Hfile Htruthy]]; rewrite Hfile; cbn [default].
    + left. unfold slot. simpl. congruence.
    + right. rewrite (native_from_api_truthy _ _ Htruthy).
      unfold slot. simpl. congruence.
Qed.

Lemma no_source_answers_witness :
  (HOST_LATEST_JSON nothing_there ≠ Forbidden
   ∧ file_snapshot (HOST_LATEST_JSON nothing_there) = None
   ∧ archive_snapshot nothing_there = None)
  ∧ get_metrics nothing_there
    = Ok {| status := 503;
            body := [ ("success", PBool false);
                      ("error",
                       PStr "No metrics available. Ensure Host Monitor is running.") ] |}
  ∧ get_metrics legacy_file_forbidden = Raise OSError
  ∧ outcome (generate_report render_two_files (λ _, "error") empty_snapshot_only)
    = Ok {| status := 200;
            body := [ ("success", PBool false);
                      ("error",
                       PStr "No metrics available to generate report") ] |}
  ∧ outcome (generate_report render_two_files (λ _, "error") legacy_file_forbidden)
    = Ok {| status := 500;
            body := [ ("success", PBool false); ("error", PStr "error") ] |}.
Proof.
  destruct no_source_answers
    as (Hmetrics & Hraise & _ & _ & Hreport & Hforbidden & _).
  assert (Hhost : HOST_LATEST_JSON nothing_there ≠ Forbidden) by discriminate.
  split; [split; [exact Hhost | split; reflexivity]|].
  split; [apply (Hmetrics nothing_there Hhost); reflexivity|].
  split; [apply (Hraise legacy_file_forbidden); reflexivity|].
  split.
  - apply (Hreport render_two_files (λ _, "error") empty_snapshot_only);
      try reflexivity; discriminate.
  - apply (Hforbidden render_two_files (λ _, "error") legacy_file_forbidden).
    left. reflexivity.
Defined.

End App.

(** ** Facts on the descending sort *)

Module SortedFacts.

Import Sorted.

Section Descending.

Context {A K : Type}.
Variable leb : K → K → bool.
Variable key : A → K.
Hypothesis leb_total : ∀ a b, leb a b = true ∨ leb b a = true.
Hypothesis leb_trans : ∀ a b c, leb a b = true → leb b c = true → leb a c = true.

(** [a] may stand before [b] in a descending list. *)
Definition before (a b : A) : Prop := leb (key b) (key a) = true.

Lemma insert_desc_perm (x : A) (l : list A) :
  Permutation (insert_desc leb key x l) (x :: l).
Proof.
  induction l as [|y rest IH]; simpl; [reflexivity|].
  destruct (leb (key y) (key x)); [reflexivity|].
  rewrite IH. apply perm_swap.
Qed.

Lemma sorted_desc_perm (l : list A) : Permutation (sorted_desc leb key l) l.
Proof.
  induction l as [|x rest IH]; simpl; [reflexivity|].
  rewrite insert_desc_perm, IH. reflexivity.
Qed.

Lemma insert_desc_sorted (x : A) (l : list A) :
  StronglySorted before l → StronglySorted before (insert_desc leb key x l).
Proof.
  induction l as [|y rest IH]; simpl; intros Hsorted.
  - constructor; constructor.
  - apply StronglySorted_inv in Hsorted as [Hrest Hy].
    destruct (leb (key y) (key x)) eqn:Hyx.
    + constructor; [constructor; assumption|].
      constructor; [exact Hyx|].
      eapply Forall_impl; [exact Hy|].
      intros b Hb. unfold before in *. eapply leb_trans; eassumption.
    + constructor; [apply IH; exact Hrest|].
      rewrite insert_desc_perm. constructor; [|exact Hy].
      unfold before. destruct (leb_total (key x) (key y)) as [H|H];
        [exact H | congruence].
Qed.

Lemma sorted_desc_sorted (l : list A) :
  StronglySorted before (sorted_desc leb key l).
Proof.
  induction l as [|x rest IH]; simpl; [constructor|].
  apply insert_desc_sorted, IH.
Qed.

(** In a descending list, what follows an item has a key that is not
    above the key of the item. *)
Lemma sorted_desc_after (l pre post : list A) (a : A) :
  sorted_desc leb key l = pre ++ a :: post →
  Forall (λ b, leb (key b) (key a) = true) post.
Proof.
  intros Heq. pose proof (sorted_desc_sorted l) as Hsorted.
  rewrite Heq in Hsorted. clear Heq.
  induction pre as [|p pre IH]; simpl in Hsorted.
  - apply StronglySorted_inv in Hsorted as [_ H]. exact H.
  - apply StronglySorted_inv in Hsorted as [H _]. apply IH, H.
Qed.

End Descending.

(** The order of strings is transitive. *)
Lemma string_leb_trans (a b c : string) :
  String.leb a b = true → String.leb b c = true → String.leb a c = true.
Proof.
  unfold String.leb. revert b c.
  induction a as [|x a IH]; intros [|y b] [|z c]; simpl;
    try discriminate; try reflexivity.
  unfold Ascii.compare.
  destruct (N.compare_spec (N_of_ascii x) (N_of_ascii y)) as [Hxy|Hxy|Hxy];
    destruct (N.compare_spec (N_of_ascii y) (N_of_ascii z)) as [Hyz|Hyz|Hyz];
    destruct (N.compare_spec (N_of_ascii x) (N_of_ascii z)) as [Hxz|Hxz|Hxz];
    try discriminate; try reflexivity; try lia.
  apply IH.
Qed.

Lemma string_leb_empty (s : string) : String.leb "" s = true.
Proof. destruct s; reflexivity. Qed.

Lemma string_leb_below_empty (s : string) : String.leb s "" = true → s = "".
Proof. destruct s; [reflexivity | discriminate]. Qed.

End SortedFacts.

(** ** core/alert_manager: the alert log

    The module is imported by tests/python/test_alert_manager.py and is not
    among the sources; its operations are modelled from the specification.
    The log files live in a store from paths to files, a file is text that
    parses as JSON or does not, and the time of a call is an argument.
    Creating a directory or writing a file can fail (no permission, an I/O
    error): whether the writes at a path succeed is a property of the
    path. *)

Module AlertManager.

Import Value.

(** Modelled from the spec: a persisted log, a JSON document or text that
    is none. *)
Inductive log_file : Type :=
| Garbage (text : string)      (* the text is not JSON *)
| Document (doc : pyval).      (* the text parses to [doc] *)

(** Modelled from the spec: the levels of an alert. *)
Definition valid_levels : list string := ["info"; "warning"; "critical"].

(** Modelled from the spec: the validation of a level against the
    enumerated set. *)
Definition is_valid_level (level : string) : bool :=
  existsb (String.eqb level) valid_levels.

(** Modelled from the spec: the document of a log,
    [{timestamp: now, alerts: alerts}]. *)
Definition log_document (now : string) (alerts : list pyval) : pyval :=
  PDict [("timestamp", PStr now); ("alerts", PList alerts)].

(** Modelled from the spec: the key of the sort, the [timestamp] of an
    alert, and the least string for an alert that has none. *)
Definition timestamp_key (alert : pyval) : string :=
  match alert with
  | PDict items =>
      match lookup_item items "timestamp" with
      | Some (PStr t) => t
      | _ => ""
      end
  | _ => ""
  end.

(** Modelled from the spec: [sort_by_timestamp(alerts)], descending, the
    newest first; an alert without a timestamp has the least key. *)
Definition _sort_alerts_by_timestamp (alerts : list pyval) : list pyval :=
  Sorted.sorted_desc String.leb timestamp_key alerts.

(** Modelled from the spec: the alerts a file holds, the [alerts] field of
    a document when it is a sequence, nothing for a malformed file or
    another shape. *)
Definition stored_alerts (f : log_file) : list pyval :=
  match f with
  | Document (PDict items) =>
      match lookup_item items "alerts" with
      | Some (PList alerts) => alerts
      | _ => []
      end
  | _ => []
  end.

(** Modelled from the spec: the test of [level_filter], an exact match of
    the level of an alert. *)
Definition has_level (level : string) (alert : pyval) : bool :=
  match alert with
  | PDict items =>
      match lookup_item items "level" with
      | Some (PStr l) => String.eqb l level
      | _ => false
      end
  | _ => false
  end.

(** Modelled from the spec: the record of a new alert; [value] and
    [threshold] are left out when they are not given. *)
Definition new_alert (now metric level message : string)
  (value threshold : option F64.float) : pyval :=
  PDict ([("level", PStr level); ("metric", PStr metric);
          ("message", PStr message)]
         ++ match value with
            | Some v => [("value", PFloat v)]
            | None => []
            end
         ++ match threshold with
            | Some t => [("threshold", PFloat t)]
            | None => []
            end
         ++ [("timestamp", PStr now)]).

(** Modelled from the spec: a file is malformed for [load] when it is no
    JSON, or when the alerts of its document are no sequence. *)
Definition malformed (f : log_file) : bool :=
  match f with
  | Garbage _ => true
  | Document (PDict items) =>
      match lookup_item items "alerts" with
      | Some (PList _) => false
      | _ => true
      end
  | Document _ => true
  end.

Lemma malformed_stored_alerts (f : log_file) :
  malformed f = true → stored_alerts f = [].
Proof.
  destruct f as [text|doc]; [reflexivity|].
  destruct doc as [| | | | | |items]; try reflexivity. simpl.
  destruct (lookup_item items "alerts") as [[| | | | | |]|];
    try reflexivity; discriminate.
Qed.

(** The files of [test_load_malformed_json] and
    [test_load_invalid_alerts_format]. *)
Definition bad_files : gmap string log_file :=
  <["bad.json" := Garbage "{invalid json"]>
  (<["invalid.json" := Document (PDict [("alerts", PStr "not a list")])]> ∅).

(** The permissions of [test_create_with_permission_error]: nothing can be
    created under [/root/]. *)
Definition outside_root (path : string) : bool :=
  negb (String.prefix "/root/" path).

Section Permissions.

(** Whether the directories of a path can be created and the file at the
    path written. *)
Variable writable : string → bool.

(** Modelled from the spec: [create_empty(path)], which ensures that the
    parent directories exist and writes [{timestamp: now, alerts: []}];
    it returns [false], and writes nothing, when the directory creation or
    the write fails. *)
Definition create_empty_alerts_file (now path : string)
  (fs : gmap string log_file) : bool * gmap string log_file :=
  if writable path then (true, <[path := Document (log_document now [])]> fs)
  else (false, fs).

(** Modelled from the spec: [load(path, level_filter?, limit?)]. A missing
    file is created empty and the result is empty; a malformed file, or one
    whose [alerts] is no sequence, gives the empty result and is left as it
    is; otherwise the alerts of the level asked for, sorted, cut to the
    first [limit]. *)
Definition load_alerts (now path : string) (level_filter : option string)
  (limit : option nat) (fs : gmap string log_file)
  : list pyval * gmap string log_file :=
  match fs !! path with
  | None => ([], snd (create_empty_alerts_file now path fs))
  | Some f =>
      let alerts := stored_alerts f in
      let alerts :=
        match level_filter with
        | Some level => List.filter (has_level level) alerts
        | None => alerts
        end in
      let alerts := _sort_alerts_by_timestamp alerts in
      let alerts :=
        match limit with
        | Some n => take n alerts
        | None => alerts
        end in
      (alerts, fs)
  end.

(** Modelled from the spec: [add(metric, level, message, value?,
    threshold?, path)]. An invalid level returns [false] and writes
    nothing; otherwise the alerts are loaded (the file is created when
    missing), the new alert is appended and the whole file is rewritten.
    The spec gives the result of a write that fails for [create_empty]
    only; the rewrite is taken to fail as that write does, with [false]
    and the log as it was. *)
Definition add_alert (now metric level message : string)
  (value threshold : option F64.float) (path : string)
  (fs : gmap string log_file) : bool * gmap string log_file :=
  if negb (is_valid_level level) then (false, fs)
  else
    let '(alerts, fs) := load_alerts now path None None fs in
    let alerts := alerts ++ [new_alert now metric level message value threshold] in
    if writable path
    then (true, <[path := Document (log_document now alerts)]> fs)
    else (false, fs).

(** *** Loading *)

Lemma load_alerts_existing (now path : string) (f : log_file)
  (fs : gmap string log_file) :
  fs !! path = Some f →
  load_alerts now path None None fs
  = (_sort_alerts_by_timestamp (stored_alerts f), fs).
Proof. intros H. unfold load_alerts. rewrite H. reflexivity. Qed.

Lemma load_alerts_missing (now path : string) (level_filter : option string)
  (limit : option nat) (fs : gmap string log_file) :
  fs !! path = None →
  load_alerts now path level_filter limit fs
  = ([], if writable path then <[path := Document (log_document now [])]> fs
         else fs).
Proof.
  intros H. unfold load_alerts, create_empty_alerts_file. rewrite H.
  destruct (writable path); reflexivity.
Qed.

(** C6. [load] of a file that is no JSON, or whose [alerts] is no sequence,
    returns the empty sequence, whatever the filter and the limit; it is a
    total function, so nothing is raised, and the store it returns is the
    store it was given: the file is not rewritten. *)
Theorem load_malformed_is_empty (now path : string)
  (level_filter : option string) (limit : option nat) (f : log_file)
  (fs : gmap string log_file) :
  fs !! path = Some f → malformed f = true →
  load_alerts now path level_filter limit fs = ([], fs).
Proof.
  intros Hfile Hbad. unfold load_alerts. rewrite Hfile.
  rewrite (malformed_stored_alerts f Hbad).
  destruct level_filter, limit; simpl; rewrite ?take_nil; reflexivity.
Qed.

(** C7, amended. [load] of a path with no file returns the empty sequence.
    Where the file can be written it leaves at the path the well-formed
    empty log [{timestamp: now, alerts: []}], every other path as it was,
    and a second [load] of the path, at any later time, returns the empty
    sequence and the store unchanged: the file is not created again. Where
    the file cannot be written the store stays as it was, with no file at
    the path. *)
Theorem load_missing_creates_where_writable (now later path : string)
  (level_filter level_filter' : option string) (limit limit' : option nat)
  (fs : gmap string log_file) :
  fs !! path = None →
  (writable path = true →
   let '(alerts, fs1) := load_alerts now path level_filter limit fs in
   alerts = []
   ∧ fs1 !! path = Some (Document (log_document now []))
   ∧ (∀ other, other ≠ path → fs1 !! other = fs !! other)
   ∧ load_alerts later path level_filter' limit' fs1 = ([], fs1))
  ∧ (writable path = false →
     load_alerts now path level_filter limit fs = ([], fs)).
Proof.
  intros Hmissing. rewrite (load_alerts_missing _ _ _ _ _ Hmissing).
  split; intros Hw; rewrite Hw; [|reflexivity].
  split; [reflexivity|]. split; [apply lookup_insert_eq|]. split.
  - intros other Hother. apply lookup_insert_ne. congruence.
  - unfold load_alerts. rewrite lookup_insert_eq. simpl.
    destruct level_filter', limit'; simpl; rewrite ?take_nil; reflexivity.
Qed.

(** *** Adding *)

Lemma is_valid_level_iff (level : string) :
  is_valid_level level = true
  ↔ level = "info" ∨ level = "warning" ∨ level = "critical".
Proof.
  unfold is_valid_level, valid_levels. simpl.
  rewrite !orb_true_iff, !String.eqb_eq. intuition discriminate.
Qed.


End Permissions.

Lemma load_malformed_is_empty_witness :
  load_alerts outside_root "2025-12-05T10:30:00Z" "bad.json" None None bad_files
  = ([], bad_files)
  ∧ load_alerts outside_root "2025-12-05T10:30:00Z" "invalid.json" None None
      bad_files
    = ([], bad_files).
Proof.
  split.
  - apply (load_malformed_is_empty _ _ _ _ _ (Garbage "{invalid json"));
      reflexivity.
  - apply (load_malformed_is_empty _ _ _ _ _
             (Document (PDict [("alerts", PStr "not a list")])));
      reflexivity.
Defined.

(** C7, as the claim states it, fails: the path of
    [test_create_with_permission_error] has no file and takes none.
    [create_empty] returns [false] there, as the test expects, and [load]
    returns the empty sequence and leaves the path without a file. *)
Lemma load_missing_read_only_creates_nothing :
  (∅ : gmap string log_file) !! "/root/test_alerts.json" = None
  ∧ outside_root "/root/test_alerts.json" = false
  ∧ create_empty_alerts_file outside_root "2025-12-05T10:30:00Z"
      "/root/test_alerts.json" ∅
    = (false, ∅)
  ∧ fst (load_alerts outside_root "2025-12-05T10:30:00Z"
           "/root/test_alerts.json" None None ∅) = []
  ∧ snd (load_alerts outside_root "2025-12-05T10:30:00Z"
           "/root/test_alerts.json" None None ∅) !! "/root/test_alerts.json"
    = None.
Proof. repeat split; reflexivity. Qed.

Lemma load_missing_creates_where_writable_witness :
  ((∅ : gmap string log_file) !! "alerts.json" = None
   ∧ outside_root "alerts.json" = true)
  ∧ load_alerts outside_root "2025-12-05T10:31:00Z" "alerts.json" None None
      (snd (load_alerts outside_root "2025-12-05T10:30:00Z" "alerts.json"
              None None ∅))
    = ([], <["alerts.json" := Document (log_document "2025-12-05T10:30:00Z" [])]> ∅).
Proof.
  split; [split; reflexivity|].
  pose proof (load_missing_creates_where_writable outside_root
                "2025-12-05T10:30:00Z" "2025-12-05T10:31:00Z" "alerts.json"
                None None None None ∅ eq_refl) as [H _].
  specialize (H eq_refl).
  destruct (load_alerts outside_root "2025-12-05T10:30:00Z" "alerts.json"
              None None ∅) as [alerts fs1] eqn:E.
  destruct H as (_ & _ & _ & H). simpl.
  injection E as _ <-. exact H.
Defined.



(** *** Sorting *)

(** The alerts of [test_sort_alerts_newest_first]. *)
Definition unsorted_alerts : list pyval :=
  [ PDict [("message", PStr "Old"); ("timestamp", PStr "2025-12-05T10:00:00Z")];
    PDict [("message", PStr "New"); ("timestamp", PStr "2025-12-05T12:00:00Z")];
    PDict [("message", PStr "Mid"); ("timestamp", PStr "2025-12-05T11:00:00Z")] ].

(** The alerts of [test_sort_alerts_with_missing_timestamp], the one
    without a timestamp put first. *)
Definition alerts_missing_timestamp : list pyval :=
  [ PDict [("message", PStr "Without timestamp")];
    PDict [("message", PStr "With timestamp");
           ("timestamp", PStr "2025-12-05T10:00:00Z")] ].

Definition message_of (alert : pyval) : pyval :=
  match alert with
  | PDict items => dict_get items "message" PNone
  | _ => PNone
  end.

(** C8. [sort_by_timestamp] is a total function: it returns for every
    sequence, an alert without a timestamp included. What it returns is the
    alerts it was given, in another order, with timestamps that never go
    up: the newest first. The alerts Old (10:00), New (12:00), Mid (11:00)
    come out as New, Mid, Old. An alert without a timestamp has the least
    key: only alerts without a timestamp come after it. *)
Theorem sort_alerts_newest_first :
  (∀ alerts : list pyval,
      Permutation (_sort_alerts_by_timestamp alerts) alerts)
  ∧ (∀ alerts : list pyval,
      StronglySorted
        (λ a b, String.leb (timestamp_key b) (timestamp_key a) = true)
        (_sort_alerts_by_timestamp alerts))
  ∧ message_of <$> _sort_alerts_by_timestamp unsorted_alerts
    = [PStr "New"; PStr "Mid"; PStr "Old"]
  ∧ (∀ (alerts pre post : list pyval) (a : pyval),
      _sort_alerts_by_timestamp alerts = pre ++ a :: post →
      timestamp_key a = "" →
      Forall (λ b, timestamp_key b = "") post)
  ∧ (∀ alert : pyval, String.leb "" (timestamp_key alert) = true)
  ∧ message_of <$> _sort_alerts_by_timestamp alerts_missing_timestamp
    = [PStr "With timestamp"; PStr "Without timestamp"].
Proof.
  repeat match goal with |- _ ∧ _ => split end.
  - intros alerts. apply SortedFacts.sorted_desc_perm.
  - intros alerts.
    apply (SortedFacts.sorted_desc_sorted String.leb timestamp_key
             String.leb_total SortedFacts.string_leb_trans).
  - reflexivity.
  - intros alerts pre post a Hsplit Hkey.
    pose proof (SortedFacts.sorted_desc_after String.leb timestamp_key
                  String.leb_total SortedFacts.string_leb_trans
                  alerts pre post a Hsplit) as Hafter.
    eapply Forall_impl; [exact Hafter|].
    intros b Hb. simpl in Hb. rewrite Hkey in Hb.
    apply SortedFacts.string_leb_below_empty, Hb.
  - intros alert. apply SortedFacts.string_leb_empty.
  - reflexivity.
Qed.

Lemma sort_alerts_newest_first_witness :
  _sort_alerts_by_timestamp alerts_missing_timestamp
  = [ PDict [("message", PStr "With timestamp");
             ("timestamp", PStr "2025-12-05T10:00:00Z")] ]
    ++ PDict [("message", PStr "Without timestamp")] :: []
  ∧ Forall (λ b, timestamp_key b = "") ([] : list pyval).
Proof.
  destruct sort_alerts_newest_first as (_ & _ & _ & Hlast & _).
  split; [reflexivity|].
  apply (Hlast alerts_missing_timestamp
           [PDict [("message", PStr "With timestamp");
                   ("timestamp", PStr "2025-12-05T10:00:00Z")]]
           [] (PDict [("message", PStr "Without timestamp")]));
    reflexivity.
Defined.

End AlertManager.
